(** * ADIv5 transport, CoreSight discovery and EFM32 flash driver

    Shallow embedding of [src/target/adiv5.c] and [src/target/efm32.c]
    of the Black Magic Debug firmware.  32-bit C integers are [Z] values
    with the wrap-around of [uint32_t] written out by [u32]; hardware
    interactions are explicit state passing over an abstract transport. *)

From Stdlib Require Import String.
From Stdlib Require Import ZArith List Lia Bool Arith.
Import ListNotations.
Open Scope Z_scope.

(** ** Machine integers *)

Definition u32 (x : Z) : Z := x mod 2 ^ 32.
Definition u64 (x : Z) : Z := x mod 2 ^ 64.

(** [~x] on a [uint32_t]. *)
Definition not32 (x : Z) : Z := u32 (Z.lnot x).
(** [~x] on a [uint64_t]. *)
Definition not64 (x : Z) : Z := u64 (Z.lnot x).

(** ** ADIv5 register addresses and transport *)

Module ADIv5.

(** Register addresses of [adiv5.h]: a DP register ([ADIV5_DP_REG]) or an
    AP register ([ADIV5_AP_REG]), each with its 8-bit offset. *)
Inductive reg := DPreg (a : Z) | APreg (a : Z).

Definition reg_addr (r : reg) : Z := match r with DPreg a | APreg a => a end.

Definition ADIV5_DP_IDCODE := DPreg 0x0.
Definition ADIV5_DP_CTRLSTAT := DPreg 0x4.
Definition ADIV5_DP_SELECT := DPreg 0x8.
Definition ADIV5_DP_RDBUFF := DPreg 0xC.
Definition ADIV5_AP_CSW := APreg 0x00.
Definition ADIV5_AP_TAR := APreg 0x04.
Definition ADIV5_AP_DRW := APreg 0x0C.

(** CSW fields of [adiv5.h] (ADIv5 CSW layout): SIZE in bits [2:0],
    AddrInc in bits [5:4]. *)
Definition ADIV5_AP_CSW_SIZE_BYTE := 0.
Definition ADIV5_AP_CSW_SIZE_HALFWORD := 1.
Definition ADIV5_AP_CSW_SIZE_WORD := 2.
Definition ADIV5_AP_CSW_SIZE_MASK := 7.
Definition ADIV5_AP_CSW_ADDRINC_SINGLE := 0x10.

Inductive rnw := ADIV5_LOW_WRITE | ADIV5_LOW_READ.

(** [enum align] of [target.h]: log2 of the access width. *)
Inductive align := ALIGN_BYTE | ALIGN_HALFWORD | ALIGN_WORD | ALIGN_DWORD.

Definition align_val (a : align) : Z :=
  match a with ALIGN_BYTE => 0 | ALIGN_HALFWORD => 1 | ALIGN_WORD => 2 | ALIGN_DWORD => 3 end.

(** [#define ALIGNOF(x)] *)
Definition ALIGNOF (x : Z) : align :=
  if Z.land x 3 =? 0 then ALIGN_WORD
  else if Z.land x 1 =? 0 then ALIGN_HALFWORD else ALIGN_BYTE.

(** [MIN] on the enumeration. *)
Definition align_min (a b : align) : align :=
  if align_val a <? align_val b then a else b.

(** The AP handle fields used by the memory engine. *)
Record ADIv5_AP := mkAP { apsel : Z; idr : Z; base : Z; cfg : Z; csw : Z }.

Section Engine.
(** The DP transport: [dp->low_access] and [dp->dp_read] over a state. *)
Context {S : Type}.
Variable low_access : S -> rnw -> reg -> Z -> S * Z.
Variable dp_read : S -> reg -> S * Z.

Definition adiv5_dp_write (s : S) (addr : reg) (value : Z) : S :=
  fst (low_access s ADIV5_LOW_WRITE addr value).

Definition ap_select (ap : ADIv5_AP) (addr : reg) : Z :=
  Z.lor (Z.shiftl (apsel ap) 24) (Z.land (reg_addr addr) 0xF0).

Definition adiv5_ap_write (ap : ADIv5_AP) (s : S) (addr : reg) (value : Z) : S :=
  let s := adiv5_dp_write s ADIV5_DP_SELECT (ap_select ap addr) in
  adiv5_dp_write s addr value.

Definition adiv5_ap_read (ap : ADIv5_AP) (s : S) (addr : reg) : S * Z :=
  let s := adiv5_dp_write s ADIV5_DP_SELECT (ap_select ap addr) in
  dp_read s addr.

(** [ap_mem_access_setup] *)
Definition ap_mem_access_setup (ap : ADIv5_AP) (s : S) (addr : Z) (al : align) : S :=
  let c := Z.lor (csw ap) ADIV5_AP_CSW_ADDRINC_SINGLE in
  let c := match al with
           | ALIGN_BYTE => Z.lor c ADIV5_AP_CSW_SIZE_BYTE
           | ALIGN_HALFWORD => Z.lor c ADIV5_AP_CSW_SIZE_HALFWORD
           | ALIGN_DWORD | ALIGN_WORD => Z.lor c ADIV5_AP_CSW_SIZE_WORD
           end in
  let s := adiv5_ap_write ap s ADIV5_AP_CSW c in
  fst (low_access s ADIV5_LOW_WRITE ADIV5_AP_TAR addr).

(** [extract]: the unit stored into [dest]; the destination buffer is
    the list of units stored, in order. *)
Definition extract (src val : Z) (al : align) : Z :=
  match al with
  | ALIGN_BYTE => Z.land (Z.shiftr val (Z.shiftl (Z.land src 3) 3)) 0xFF
  | ALIGN_HALFWORD => Z.land (Z.shiftr val (Z.shiftl (Z.land src 2) 3)) 0xFFFF
  | ALIGN_DWORD | ALIGN_WORD => val
  end.

(** The 10-bit TAR overflow test [(a ^ b) & 0xfffffc00]. *)
Definition tar_wrapped (a b : Z) : bool := negb (Z.land (Z.lxor a b) 0xfffffc00 =? 0).

(** The [while (--len)] loop of [adiv5_mem_read]; [n] is the number of
    iterations left. *)
Fixpoint mem_read_loop (al : align) (n : nat) (s : S) (dest : list Z) (src osrc : Z)
  : S * list Z * Z :=
  match n with
  | O => (s, dest, src)
  | Datatypes.S n =>
      let (s, tmp) := low_access s ADIV5_LOW_READ ADIV5_AP_DRW 0 in
      let dest := dest ++ [extract src tmp al] in
      let src := u32 (src + 2 ^ align_val al) in
      if tar_wrapped src osrc then
        let s := fst (low_access s ADIV5_LOW_WRITE ADIV5_AP_TAR src) in
        let s := fst (low_access s ADIV5_LOW_READ ADIV5_AP_DRW 0) in
        mem_read_loop al n s dest src src
      else mem_read_loop al n s dest src osrc
  end.

(** [adiv5_mem_read]: returns the transport state and the units stored
    into [dest].  [len] is a [size_t]; when [len > 0] the transfer count
    [len >> align] is at least 1 ([mem_read_count]) so [--len] never
    wraps and the loop runs [count - 1] times. *)
Definition adiv5_mem_read (ap : ADIv5_AP) (s : S) (src len : Z) : S * list Z :=
  let osrc := src in
  let al := align_min (ALIGNOF src) (ALIGNOF len) in
  if len =? 0 then (s, [])
  else
    let cnt := Z.shiftr len (align_val al) in
    let s := ap_mem_access_setup ap s src al in
    let s := fst (low_access s ADIV5_LOW_READ ADIV5_AP_DRW 0) in
    let '(s, dest, src) := mem_read_loop al (Z.to_nat (cnt - 1)) s [] src osrc in
    let (s, tmp) := low_access s ADIV5_LOW_READ ADIV5_DP_RDBUFF 0 in
    (s, dest ++ [extract src tmp al]).

(** Lane packing of [adiv5_mem_write_sized]. *)
Definition pack (dest unit : Z) (al : align) : Z :=
  match al with
  | ALIGN_BYTE => u32 (Z.shiftl unit (Z.shiftl (Z.land dest 3) 3))
  | ALIGN_HALFWORD => u32 (Z.shiftl unit (Z.shiftl (Z.land dest 2) 3))
  | ALIGN_DWORD | ALIGN_WORD => unit
  end.

(** The [while (len--)] loop of [adiv5_mem_write_sized]; [src] is the list
    of source units still to write. *)
Fixpoint mem_write_loop (al : align) (n : nat) (s : S) (src : list Z) (dest odest : Z) : S :=
  match n with
  | O => s
  | Datatypes.S n =>
      let tmp := pack dest (hd 0 src) al in
      let src := tl src in
      let dest := u32 (dest + 2 ^ align_val al) in
      let s := fst (low_access s ADIV5_LOW_WRITE ADIV5_AP_DRW tmp) in
      if tar_wrapped dest odest then
        let s := fst (low_access s ADIV5_LOW_WRITE ADIV5_AP_TAR dest) in
        mem_write_loop al n s src dest dest
      else mem_write_loop al n s src dest odest
  end.

(** [adiv5_mem_write_sized] *)
Definition adiv5_mem_write_sized (ap : ADIv5_AP) (s : S) (dest : Z) (src : list Z)
    (len : Z) (al : align) : S :=
  let odest := dest in
  let len := Z.shiftr len (align_val al) in
  let s := ap_mem_access_setup ap s dest al in
  mem_write_loop al (Z.to_nat len) s src dest odest.

(** [adiv5_mem_write] *)
Definition adiv5_mem_write (ap : ADIv5_AP) (s : S) (dest : Z) (src : list Z) (len : Z) : S :=
  adiv5_mem_write_sized ap s dest src len (align_min (ALIGNOF dest) (ALIGNOF len)).
End Engine.

(** *** A recording transport

    Every access is appended to a trace; reads return the next value of a
    response list (0 once it is exhausted). *)
Inductive event :=
| EvLow (op : rnw) (r : reg) (v : Z)
| EvDpRead (r : reg) (v : Z).

Record recorder := mkRec { trace : list event; responses : list Z }.

Definition rec_low_access (s : recorder) (op : rnw) (r : reg) (v : Z) : recorder * Z :=
  match op with
  | ADIV5_LOW_WRITE => (mkRec (trace s ++ [EvLow op r v]) (responses s), 0)
  | ADIV5_LOW_READ =>
      let x := hd 0 (responses s) in
      (mkRec (trace s ++ [EvLow op r x]) (tl (responses s)), x)
  end.

Definition rec_dp_read (s : recorder) (r : reg) : recorder * Z :=
  let x := hd 0 (responses s) in
  (mkRec (trace s ++ [EvDpRead r x]) (tl (responses s)), x).

(** *** A MEM-AP as ADIv5 specifies it

    AP reads are posted: a DRW read returns the result of the previous AP
    read and starts a bus read at TAR; RDBUFF returns the pending result
    without starting a transfer.  After each DRW access TAR is incremented
    by the CSW size, and the increment is only guaranteed within the low 10
    bits of TAR: this MEM-AP wraps inside the current 1 KiB block. *)
Record memap := mkMemAP {
  m_tar : Z;
  m_size : Z;
  m_pending : Z;
  m_mem : Z -> Z;
  m_writes : list (Z * Z)
}.

Definition reg_eqb (a b : reg) : bool :=
  match a, b with
  | DPreg x, DPreg y => x =? y
  | APreg x, APreg y => x =? y
  | _, _ => false
  end.

Definition tar_incr (tar size : Z) : Z :=
  tar / 1024 * 1024 + (tar + 2 ^ size) mod 1024.

Definition memap_low_access (s : memap) (op : rnw) (r : reg) (v : Z) : memap * Z :=
  match op with
  | ADIV5_LOW_WRITE =>
      if reg_eqb r ADIV5_AP_CSW then
        (mkMemAP (m_tar s) (Z.land v ADIV5_AP_CSW_SIZE_MASK) (m_pending s) (m_mem s) (m_writes s), 0)
      else if reg_eqb r ADIV5_AP_TAR then
        (mkMemAP v (m_size s) (m_pending s) (m_mem s) (m_writes s), 0)
      else if reg_eqb r ADIV5_AP_DRW then
        (mkMemAP (tar_incr (m_tar s) (m_size s)) (m_size s) (m_pending s) (m_mem s)
                 (m_writes s ++ [(m_tar s, v)]), 0)
      else (s, 0)
  | ADIV5_LOW_READ =>
      if reg_eqb r ADIV5_AP_DRW then
        (mkMemAP (tar_incr (m_tar s) (m_size s)) (m_size s) (m_mem s (m_tar s)) (m_mem s)
                 (m_writes s), m_pending s)
      else if reg_eqb r ADIV5_DP_RDBUFF then (s, m_pending s)
      else (s, 0)
  end.

(** The SIZE field [ap_mem_access_setup] writes for an alignment. *)
Definition csw_size (al : align) : Z :=
  match al with
  | ALIGN_BYTE => ADIV5_AP_CSW_SIZE_BYTE
  | ALIGN_HALFWORD => ADIV5_AP_CSW_SIZE_HALFWORD
  | ALIGN_DWORD | ALIGN_WORD => ADIV5_AP_CSW_SIZE_WORD
  end.

(** Units obtained by lane-extracting the data words [ds], the k-th at the
    k-th transfer address from [src]. *)
Fixpoint lanes_of (al : align) (src : Z) (ds : list Z) : list Z :=
  match ds with
  | [] => []
  | d :: ds => extract src d al :: lanes_of al (u32 (src + 2 ^ align_val al)) ds
  end.


(** The events of one iteration of the read loop: the DRW read whose
    result is stored, then the TAR re-arm (TAR write and priming DRW read)
    when the address crossed a 1 KiB block. *)
Definition chunk_events (c : Z * list event) : list event :=
  EvLow ADIV5_LOW_READ ADIV5_AP_DRW (fst c) :: snd c.

Definition rearm_ok (e : list event) : Prop :=
  e = [] \/ exists t p, e = [EvLow ADIV5_LOW_WRITE ADIV5_AP_TAR t; EvLow ADIV5_LOW_READ ADIV5_AP_DRW p].

End ADIv5.

(** ** CoreSight component discovery *)

Module Discovery.
Import ADIv5.

Definition CIDR0_OFFSET := 0xFF0.
Definition PIDR0_OFFSET := 0xFE0.
Definition PIDR4_OFFSET := 0xFD0.
Definition CID_PREAMBLE := 0xB105000D.
Definition CID_CLASS_MASK := 0x0000F000.
Definition CID_CLASS_SHIFT := 12.
Definition cidc_romtab := 0x1.
Definition cidc_dc := 0x9.
Definition cidc_gipc := 0xE.
Definition cidc_unknown := 0x10.
Definition PIDR_REV_MASK := 0x0FFF00000.
Definition PIDR_PN_MASK := 0x000000FFF.
Definition PIDR_ARM_BITS := 0x4000BB000.
Definition DEVARCH_OFFSET := 0xFBC.
Definition DEVARCH_ARCHID_MASK := 0x0000FFFF.
Definition DEVARCH_ARCHID_SHIFT := 0.
Definition DEVARCH_PRESENT_MASK := 0x00100000.
Definition DEVTYPE_OFFSET := 0xFCC.
Definition DEVTYPE_MAJOR_MASK := 0x0F.
Definition DEVTYPE_MAJOR_SHIFT := 0.
Definition DEVTYPE_MINOR_MASK := 0xF0.
Definition DEVTYPE_MINOR_SHIFT := 4.

(** Modelled from the spec: [ADIV5_ROM_ROMENTRY_PRESENT] and
    [ADIV5_ROM_ROMENTRY_OFFSET] come from [adiv5.h], which is not among the
    sources; the spec gives the ROM entry layout: bit 0 PRESENT, offset
    mask [0xFFFFF000]. *)
Definition ADIV5_ROM_ROMENTRY_PRESENT := 0x1.
Definition ADIV5_ROM_ROMENTRY_OFFSET := 0xFFFFF000.

Inductive arm_arch := aa_nosupport | aa_cortexm | aa_cortexa | aa_v8 | aa_end.

Definition arch_eqb (a b : arm_arch) : bool :=
  match a, b with
  | aa_nosupport, aa_nosupport | aa_cortexm, aa_cortexm | aa_cortexa, aa_cortexa
  | aa_v8, aa_v8 | aa_end, aa_end => true
  | _, _ => false
  end.

(** [pidr_pn_bits]: part number, architecture, expected CID class (the
    strings are debug output only). *)
Definition pidr_pn_bits : list (Z * arm_arch * Z) := [
  (0x000, aa_cortexm, cidc_gipc); (0x001, aa_nosupport, cidc_unknown);
  (0x002, aa_nosupport, cidc_unknown); (0x003, aa_nosupport, cidc_unknown);
  (0x008, aa_cortexm, cidc_gipc); (0x00a, aa_nosupport, cidc_unknown);
  (0x00b, aa_nosupport, cidc_unknown); (0x00c, aa_cortexm, cidc_gipc);
  (0x00d, aa_nosupport, cidc_unknown); (0x00e, aa_nosupport, cidc_unknown);
  (0x101, aa_nosupport, cidc_unknown); (0x490, aa_nosupport, cidc_unknown);
  (0x4c7, aa_nosupport, cidc_unknown); (0x906, aa_nosupport, cidc_unknown);
  (0x907, aa_nosupport, cidc_unknown); (0x908, aa_nosupport, cidc_unknown);
  (0x910, aa_nosupport, cidc_unknown); (0x912, aa_nosupport, cidc_unknown);
  (0x913, aa_nosupport, cidc_unknown); (0x914, aa_nosupport, cidc_unknown);
  (0x917, aa_nosupport, cidc_unknown); (0x920, aa_nosupport, cidc_unknown);
  (0x921, aa_nosupport, cidc_unknown); (0x922, aa_nosupport, cidc_unknown);
  (0x923, aa_nosupport, cidc_unknown); (0x924, aa_nosupport, cidc_unknown);
  (0x925, aa_nosupport, cidc_unknown); (0x930, aa_nosupport, cidc_unknown);
  (0x932, aa_nosupport, cidc_unknown); (0x941, aa_nosupport, cidc_unknown);
  (0x950, aa_nosupport, cidc_unknown); (0x955, aa_nosupport, cidc_unknown);
  (0x956, aa_nosupport, cidc_unknown); (0x95f, aa_nosupport, cidc_unknown);
  (0x961, aa_nosupport, cidc_unknown); (0x962, aa_nosupport, cidc_unknown);
  (0x963, aa_nosupport, cidc_unknown); (0x975, aa_nosupport, cidc_unknown);
  (0x9a0, aa_nosupport, cidc_unknown); (0x9a1, aa_nosupport, cidc_unknown);
  (0x9a9, aa_nosupport, cidc_unknown); (0x9a5, aa_nosupport, cidc_unknown);
  (0x9a7, aa_nosupport, cidc_unknown); (0x9af, aa_nosupport, cidc_unknown);
  (0xc05, aa_cortexa, cidc_dc); (0xc07, aa_cortexa, cidc_dc);
  (0xc08, aa_cortexa, cidc_dc); (0xc09, aa_cortexa, cidc_dc);
  (0xc0f, aa_nosupport, cidc_unknown); (0xc14, aa_nosupport, cidc_unknown);
  (0xcd0, aa_nosupport, cidc_unknown); (0xd21, aa_v8, cidc_unknown);
  (0xfff, aa_end, cidc_unknown)].

(** [devarch_archid_bits] (archid, architecture). *)
Definition devarch_archid_bits : list (Z * arm_arch) := [
  (0x0a00, aa_nosupport); (0x0a01, aa_nosupport); (0x0a02, aa_nosupport);
  (0x0a03, aa_nosupport); (0x0a04, aa_cortexm); (0x0a10, aa_nosupport);
  (0x0a17, aa_nosupport); (0x0a27, aa_nosupport); (0x0a31, aa_nosupport);
  (0x0a37, aa_nosupport); (0x0a47, aa_nosupport); (0x0a50, aa_nosupport);
  (0x0a63, aa_nosupport); (0x0a75, aa_nosupport); (0x0af7, aa_nosupport);
  (0x1a01, aa_nosupport); (0x1a02, aa_nosupport); (0x1a03, aa_nosupport);
  (0x1a14, aa_nosupport); (0x2a04, aa_cortexm); (0x2a16, aa_nosupport);
  (0x4a13, aa_nosupport); (0x6a05, aa_nosupport); (0x6a15, aa_cortexa);
  (0x7a15, aa_cortexa); (0x8a15, aa_cortexa); (0xffff, aa_end)].

(** [devtype_id_bits] (id, architecture). *)
Definition devtype_id_bits : list (Z * arm_arch) := [
  (0x00, aa_nosupport); (0x04, aa_nosupport); (0x10, aa_nosupport);
  (0x11, aa_nosupport); (0x12, aa_nosupport); (0x13, aa_nosupport);
  (0x20, aa_nosupport); (0x21, aa_nosupport); (0x22, aa_nosupport);
  (0x23, aa_nosupport); (0x30, aa_nosupport); (0x31, aa_nosupport);
  (0x32, aa_nosupport); (0x33, aa_nosupport); (0x34, aa_nosupport);
  (0x36, aa_nosupport); (0x40, aa_nosupport); (0x41, aa_nosupport);
  (0x42, aa_nosupport); (0x43, aa_nosupport); (0x50, aa_nosupport);
  (0x51, aa_nosupport); (0x52, aa_nosupport); (0x53, aa_nosupport);
  (0x54, aa_nosupport); (0x55, aa_nosupport); (0x60, aa_nosupport);
  (0x61, aa_nosupport); (0x62, aa_nosupport); (0x63, aa_nosupport);
  (0x64, aa_nosupport); (0x65, aa_nosupport); (0xff, aa_end)].

(** The [for (i = 0; tbl[i].arch != aa_end; i++)] scan of the DEVARCH and
    DEVTYPE tables: the first entry with the id and a supported
    architecture; [aa_nosupport] when there is none. *)
Fixpoint arch_lookup (tbl : list (Z * arm_arch)) (id : Z) : arm_arch :=
  match tbl with
  | [] => aa_nosupport
  | (k, a) :: tbl =>
      if arch_eqb a aa_end then aa_nosupport
      else if (k =? id) && negb (arch_eqb a aa_nosupport) then a
      else arch_lookup tbl id
  end.

(** The scan of [pidr_pn_bits]: the first entry with the part number. *)
Fixpoint pn_lookup (tbl : list (Z * arm_arch * Z)) (pn : Z) : option arm_arch :=
  match tbl with
  | [] => None
  | (k, a, _) :: tbl =>
      if arch_eqb a aa_end then None
      else if k =? pn then Some a else pn_lookup tbl pn
  end.

Section Probe.
Context {S : Type}.
Variable low_access : S -> rnw -> reg -> Z -> S * Z.
(** [adiv5_dp_error(ap->dp)]: the DP's sticky error, read (and cleared)
    through the DP. *)
Variable dp_error : S -> S * bool.
(** The external core probes [cortexm_probe(ap, forced)] and
    [cortexa_probe(ap, base)]. *)
Variable cortexm_probe : S -> bool -> S.
Variable cortexa_probe : S -> Z -> S.
Variable ap : ADIv5_AP.

(** [adiv5_mem_read32]: a 4-byte [adiv5_mem_read] into a [uint32_t]. *)
Definition adiv5_mem_read32 (s : S) (addr : Z) : S * Z :=
  let (s, l) := adiv5_mem_read low_access ap s addr 4 in (s, hd 0 l).

(** [adiv5_ap_read_id]: the low byte of four consecutive words. *)
Fixpoint read_id_loop (n : nat) (i : Z) (s : S) (addr res : Z) : S * Z :=
  match n with
  | O => (s, res)
  | Datatypes.S n =>
      let (s, x) := adiv5_mem_read32 s (u32 (addr + 4 * i)) in
      read_id_loop n (i + 1) s addr (Z.lor res (u32 (Z.shiftl (Z.land x 0xff) (i * 8))))
  end.

Definition adiv5_ap_read_id (s : S) (addr : Z) : S * Z := read_id_loop 4 0 s addr 0.

Definition adiv5_ap_read_pidr (s : S) (addr : Z) : S * Z :=
  let (s, hi) := adiv5_ap_read_id s (u32 (addr + PIDR4_OFFSET)) in
  let (s, lo) := adiv5_ap_read_id s (u32 (addr + PIDR0_OFFSET)) in
  (s, Z.lor (u64 (Z.shiftl hi 32)) lo).

Definition adiv5_armv8_probe (s : S) (addr : Z) : S * arm_arch :=
  let (s, devarch) := adiv5_mem_read32 s (u32 (addr + DEVARCH_OFFSET)) in
  if negb (Z.land devarch DEVARCH_PRESENT_MASK =? 0) then
    let devarch_id := Z.land (Z.shiftr (Z.land devarch DEVARCH_ARCHID_MASK) DEVARCH_ARCHID_SHIFT) 0xFFFF in
    (s, arch_lookup devarch_archid_bits devarch_id)
  else
    let (s, devtype) := adiv5_mem_read32 s (u32 (addr + DEVTYPE_OFFSET)) in
    let devtype_id := Z.land (Z.shiftr (Z.land devtype DEVTYPE_MINOR_MASK) DEVTYPE_MINOR_SHIFT) 0xFF in
    let devtype_id := Z.land (Z.lor devtype_id
                        (Z.land (Z.shiftl (Z.land (Z.shiftr (Z.land devtype DEVTYPE_MAJOR_MASK)
                                   DEVTYPE_MAJOR_SHIFT) 0xFF) 4) 0xFF)) 0xFF in
    (s, arch_lookup devtype_id_bits devtype_id).

(** The dispatch of a recognised, non-ROM-table component. *)
Definition dispatch (s : S) (arch armv8 : arm_arch) (addr : Z) : S :=
  match arch with
  | aa_cortexm => cortexm_probe s false
  | aa_v8 =>
      match armv8 with
      | aa_cortexm => cortexm_probe s false
      | aa_cortexa => cortexa_probe s addr
      | _ => s
      end
  | aa_cortexa => cortexa_probe s addr
  | _ => s
  end.

(** The [for (int i = 0; i < 960; i++)] scan of a ROM table at [addr];
    [probe] is the recursive [adiv5_component_probe] call, [k] the
    entries left. *)
Fixpoint rom_table_scan (probe : S -> Z -> Z -> Z -> option (S * bool))
  (k : nat) (i : Z) (s : S) (addr recursion : Z) (res : bool) : option (S * bool) :=
  match k with
  | O => Some (s, res)
  | Datatypes.S k =>
      let (s, entry) := adiv5_mem_read32 s (u32 (addr + i * 4)) in
      let (s, _) := dp_error s in
      if entry =? 0 then Some (s, res)
      else if Z.land entry ADIV5_ROM_ROMENTRY_PRESENT =? 0
      then rom_table_scan probe k (i + 1) s addr recursion res
      else
        match probe s (u32 (addr + Z.land entry ADIV5_ROM_ROMENTRY_OFFSET)) (recursion + 1) i with
        | None => None
        | Some (s, r) => rom_table_scan probe k (i + 1) s addr recursion (orb res r)
        end
  end.

(** [adiv5_component_probe].  The C recursion has no bound of its own:
    [fuel] bounds the nesting depth, [None] meaning it was exhausted.
    [recursion] and [num_entry] only feed debug output, as does the
    [ADIV5_ROM_MEMTYPE] read of debug builds, which is left out. *)
Fixpoint adiv5_component_probe (fuel : nat) (s : S) (addr : Z) (recursion num_entry : Z)
  {struct fuel} : option (S * bool) :=
  match fuel with
  | O => None
  | Datatypes.S fuel =>
      let addr := Z.land addr (not32 3) in
      let (s, pidr) := adiv5_ap_read_pidr s addr in
      let (s, cidr) := adiv5_ap_read_id s (u32 (addr + CIDR0_OFFSET)) in
      let (s, err) := dp_error s in
      if err then Some (s, false)
      else if negb (Z.land cidr (not32 CID_CLASS_MASK) =? CID_PREAMBLE) then Some (s, false)
      else
        let cid_class := Z.shiftr (Z.land cidr CID_CLASS_MASK) CID_CLASS_SHIFT in
        if cid_class =? cidc_romtab then
          rom_table_scan (adiv5_component_probe fuel) 960 0 s addr recursion false
        else if negb (Z.land pidr (not64 (Z.lor PIDR_REV_MASK PIDR_PN_MASK)) =? PIDR_ARM_BITS)
        then Some (s, false)
        else
          let part_number := Z.land pidr PIDR_PN_MASK in
          match pn_lookup pidr_pn_bits part_number with
          | None => Some (s, false)
          | Some arch =>
              let (s, armv8) := if arch_eqb arch aa_v8 then adiv5_armv8_probe s addr
                                else (s, aa_nosupport) in
              Some (dispatch s arch armv8 addr, true)
          end
  end.
End Probe.

(** The ROM-table structure held in a flat memory, read as the discovery
    walk reads it: the CIDR word of a component, its ROM-table entries up
    to the first zero one, and whether the nesting of tables below an
    address is at most [n] deep. *)
Fixpoint mem_id_loop (mem : Z -> Z) (n : nat) (i addr res : Z) : Z :=
  match n with
  | O => res
  | Datatypes.S n =>
      mem_id_loop mem n (i + 1) addr
        (Z.lor res (u32 (Z.shiftl (Z.land (mem (u32 (addr + 4 * i))) 0xff) (i * 8))))
  end.

Definition mem_cidr (mem : Z -> Z) (addr : Z) : Z :=
  mem_id_loop mem 4 0 (u32 (Z.land addr (not32 3) + CIDR0_OFFSET)) 0.

Definition mem_is_rom_table (mem : Z -> Z) (addr : Z) : bool :=
  let cidr := mem_cidr mem addr in
  (Z.land cidr (not32 CID_CLASS_MASK) =? CID_PREAMBLE) &&
  (Z.shiftr (Z.land cidr CID_CLASS_MASK) CID_CLASS_SHIFT =? cidc_romtab).

Fixpoint rom_entries (mem : Z -> Z) (k : nat) (i addr : Z) : list Z :=
  match k with
  | O => []
  | Datatypes.S k =>
      let entry := mem (u32 (addr + i * 4)) in
      if entry =? 0 then []
      else if Z.land entry ADIV5_ROM_ROMENTRY_PRESENT =? 0 then rom_entries mem k (i + 1) addr
      else u32 (addr + Z.land entry ADIV5_ROM_ROMENTRY_OFFSET) :: rom_entries mem k (i + 1) addr
  end.

Fixpoint rom_depth_le (mem : Z -> Z) (n : nat) (addr : Z) : bool :=
  match n with
  | O => false
  | Datatypes.S n =>
      if mem_is_rom_table mem addr
      then forallb (rom_depth_le mem n) (rom_entries mem 960 0 (Z.land addr (not32 3)))
      else true
  end.

(** A ROM table at [0x80000000] whose entry 0 ([0x1]: present, offset 0)
    points back at the table itself. *)
Definition self_rom (a : Z) : Z :=
  if a =? 0x80000000 then 0x1
  else if a =? 0x80000FF0 then 0x0D
  else if a =? 0x80000FF4 then 0x10
  else if a =? 0x80000FF8 then 0x05
  else if a =? 0x80000FFC then 0xB1
  else 0.

(** An error register that never reports a fault. *)
Definition memap_dp_error (s : memap) : memap * bool := (s, false).

(** *** AP enumeration of [adiv5_dp_init]

    The loop that follows the power-up and reset sequence.  [adiv5_new_ap],
    the per-AP probes and [adiv5_component_probe] are the collaborators;
    [adiv5_ap_setup] is the non-JTAG_HL one, which always succeeds, and
    [adiv5_ap_cleanup] does nothing. *)

(** Modelled from the spec: [ADIV5_AP_BASE_PRESENT] is defined in
    [adiv5.h], which is not among the sources; the spec: BASE bit 0 =
    PRESENT. *)
Definition ADIV5_AP_BASE_PRESENT := 0x1.

Definition adiv5_ap_setup (i : Z) : bool := true.

(** A component at [0xE00FF000] whose CIDR bytes read [0xA105000D]: the
    preamble does not match. *)
Definition s1_mem (a : Z) : Z :=
  if a =? 0xE00FFFF0 then 0x0D
  else if a =? 0xE00FFFF4 then 0x00
  else if a =? 0xE00FFFF8 then 0x05
  else if a =? 0xE00FFFFC then 0xA1
  else 0.

(** A ROM table at [0x80000000] with one entry ([0x1001]: present, offset
    [0x1000]) pointing at a debug component (CIDR class 9) at [0x80001000]. *)
Definition two_level_rom (a : Z) : Z :=
  if a =? 0x80000000 then 0x1001
  else if a =? 0x80000FF0 then 0x0D
  else if a =? 0x80000FF4 then 0x10
  else if a =? 0x80000FF8 then 0x05
  else if a =? 0x80000FFC then 0xB1
  else if a =? 0x80001FF0 then 0x0D
  else if a =? 0x80001FF4 then 0x90
  else if a =? 0x80001FF8 then 0x05
  else if a =? 0x80001FFC then 0xB1
  else 0.

Section Scan.
Context {S : Type}.
Variable adiv5_new_ap : S -> Z -> S * option ADIv5_AP.
Variable kinetis_mdm_probe nrf51_mdm_probe efm32_aap_probe : S -> ADIv5_AP -> S.
Variable component_probe : S -> ADIv5_AP -> Z -> S * bool.
Variable cortexm_probe : S -> ADIv5_AP -> bool -> S.
(** [dp->idcode] *)
Variable idcode : Z.

(** [for (int i = 0; (i < 256) && (void_aps < 8); i++)]; [n] bounds the
    iterations left, 256 being enough. *)
Fixpoint ap_scan (n : nat) (i : Z) (s : S) (last_base void_aps : Z) (probed : bool) : S :=
  match n with
  | O => s
  | Datatypes.S n =>
      if negb ((i <? 256) && (void_aps <? 8)) then s
      else
        let (s, ap) := if adiv5_ap_setup i then adiv5_new_ap s i else (s, None) in
        match ap with
        | None =>
            let void_aps := void_aps + 1 in
            if i =? 0 then s else ap_scan n (i + 1) s last_base void_aps probed
        | Some ap =>
            if base ap =? last_base then s
            else
              let last_base := base ap in
              let s := kinetis_mdm_probe s ap in
              let s := nrf51_mdm_probe s ap in
              let s := efm32_aap_probe s ap in
              if negb (negb (Z.land (base ap) ADIV5_AP_BASE_PRESENT =? 0)) || (base ap =? 0xffffffff)
              then ap_scan n (i + 1) s last_base void_aps probed
              else
                let (s, r) := component_probe s ap (base ap) in
                let probed := probed || r in
                if negb probed && (Z.land idcode 0xfff =? 0x477) then
                  let s := cortexm_probe s ap true in
                  ap_scan n (i + 1) s last_base void_aps true
                else ap_scan n (i + 1) s last_base void_aps probed
        end
  end.

Definition adiv5_dp_init_scan (s : S) : S := ap_scan 256 0 s 0 0 false.
End Scan.

(** A recording instance of the collaborators: [aps i] is the BASE of the
    AP at apsel [i] ([None]: IDR reads 0), [disc i] what the component walk
    of that AP returns.  [adiv5_new_ap] records the apsel it examines; the
    component walk and [cortexm_probe] record their calls. *)
Inductive probe_event := EvDiscover (i : Z) | EvForced (i : Z).

Record scan_log := mkScan { visited : list Z; probes : list probe_event }.

Definition log_new_ap (aps : Z -> option Z) (s : scan_log) (i : Z) : scan_log * option ADIv5_AP :=
  (mkScan (visited s ++ [i]) (probes s),
   match aps i with None => None | Some b => Some (mkAP i 1 b 0 0) end).

Definition log_component_probe (disc : Z -> bool) (s : scan_log) (ap : ADIv5_AP) (addr : Z)
  : scan_log * bool :=
  (mkScan (visited s) (probes s ++ [EvDiscover (apsel ap)]), disc (apsel ap)).

Definition log_cortexm_probe (s : scan_log) (ap : ADIv5_AP) (forced : bool) : scan_log :=
  mkScan (visited s) (probes s ++ [if forced then EvForced (apsel ap) else EvDiscover (apsel ap)]).

Definition log_mdm (s : scan_log) (ap : ADIv5_AP) : scan_log := s.

Definition log_scan (aps : Z -> option Z) (disc : Z -> bool) (idcode : Z) : scan_log :=
  adiv5_dp_init_scan (log_new_ap aps) log_mdm log_mdm log_mdm (log_component_probe disc)
    log_cortexm_probe idcode (mkScan [] []).

(** Two MEM-APs with distinct, present BASEs at apsel 0 and 1; none after. *)
Definition two_mem_aps (i : Z) : option Z :=
  if i =? 0 then Some 0xE00FF003 else if i =? 1 then Some 0xE01FF003 else None.

(** MEM-APs at the even apsels, with distinct present BASEs; the odd apsels
    are empty. *)
Definition alt_aps (i : Z) : option Z :=
  if Z.even i then Some (i * 0x10000 + 3) else None.

(** The APs present before apsel [n], absent ones counted, and the BASE of
    the last present one (0 when there is none). *)
Fixpoint absent_before (aps : Z -> option Z) (n : nat) : Z :=
  match n with
  | O => 0
  | Datatypes.S m => absent_before aps m + match aps (Z.of_nat m) with None => 1 | Some _ => 0 end
  end.

Fixpoint base_before (aps : Z -> option Z) (n : nat) : Z :=
  match n with
  | O => 0
  | Datatypes.S m => match aps (Z.of_nat m) with None => base_before aps m | Some b => b end
  end.

(** Whether the scan stops right after examining apsel [m]. *)
Definition stops_at (aps : Z -> option Z) (m : nat) : bool :=
  match aps (Z.of_nat m) with
  | None => Nat.eqb m 0
  | Some b => b =? base_before aps m
  end.

(** The duplicate-BASE rule as the spec words it, for comparison with
    [stops_at]: the BASE of the last present AP before apsel [n], if there
    is one, and whether the scan stops right after apsel [m] (an absent
    apsel 0, or a present AP repeating the previous present AP's BASE). *)
Fixpoint prev_base (aps : Z -> option Z) (n : nat) : option Z :=
  match n with
  | O => None
  | Datatypes.S m => match aps (Z.of_nat m) with None => prev_base aps m | Some b => Some b end
  end.

Definition spec_stops_at (aps : Z -> option Z) (m : nat) : bool :=
  match aps (Z.of_nat m) with
  | None => Nat.eqb m 0
  | Some b => match prev_base aps m with Some b' => b =? b' | None => false end
  end.

End Discovery.

(** ** EFM32 flash driver ([src/target/efm32.c]) *)

Module EFM32.
Import ADIv5.

(** *** Memory System Controller registers *)

Definition EFM32_MSC_WRITECTRL (msc : Z) : Z := msc + (if msc =? 0x40030000 then 0x0c else 0x08).
Definition EFM32_MSC_WRITECMD (msc : Z) : Z := msc + (if msc =? 0x40030000 then 0x10 else 0x0c).
Definition EFM32_MSC_ADDRB (msc : Z) : Z := msc + (if msc =? 0x40030000 then 0x14 else 0x10).
Definition EFM32_MSC_STATUS (msc : Z) : Z := msc + 0x01c.
Definition EFM32_MSC_LOCK (msc : Z) : Z :=
  msc + (if (msc =? 0x40030000) || (msc =? 0x400c0000) then 0x3c else 0x40).

Definition EFM32_MSC_LOCK_LOCKKEY := 0x1b71.
Definition EFM32_MSC_WRITECMD_LADDRIM := 0x1.
Definition EFM32_MSC_WRITECMD_ERASEPAGE := 0x2.
Definition EFM32_MSC_STATUS_BUSY := 0x1.

(** *** Device information page *)

Definition EFM32_INFO := 0x0fe00000.
Definition EFM32_USER_DATA := EFM32_INFO + 0x00000.
Definition EFM32_DI_V1 := EFM32_INFO + 0x081B0.
Definition EFM32_DI_V2 := EFM32_INFO + 0x081A8.
Definition EFM32_DI_V3 := EFM32_INFO + 0x081B0.
Definition EFM32_DI_V4 := EFM32_INFO + 0x08000.
Definition EFM32_BOOTLOADER := EFM32_INFO + 0x10000.

Definition EFM32_DI_PART_NUMBER_OFST := 0.
Definition EFM32_DI_PART_FAMILY_OFST := 16.
Definition EFM32_DI_PART_NUMBER_MASK := 0xFFFF.
Definition EFM32_DI_PART_FAMILY_MASK := 0xFF.
Definition EFM32_DI_V4_PART_FAMILYNUM_OFST := 16.
Definition EFM32_DI_V4_PART_FAMILYNUM_MASK := 0x3F.
Definition EFM32_DI_V4_PART_FAMILY_OFST := 24.
Definition EFM32_DI_V4_PART_FAMILY_MASK := 0x3F.
Definition EFM32_DI_MSIZE_FLASH_OFST := 0.
Definition EFM32_DI_MSIZE_SRAM_OFST := 16.
Definition EFM32_DI_MSIZE_FLASH_MASK := 0xFFFF.
Definition EFM32_DI_MSIZE_SRAM_MASK := 0xFFFF.

(** [&((di_vN_t * ) EFM32_DI_VN)->PART] and [->MSIZE]: word offsets of the
    fields in the structures [di_v1_t] .. [di_v4_t]; 0 for an unsupported
    version. *)
Definition di_part_addr (di_version : Z) : Z :=
  if di_version =? 1 then EFM32_DI_V1 + 4 * 19
  else if di_version =? 2 then EFM32_DI_V2 + 4 * 21
  else if di_version =? 3 then EFM32_DI_V3 + 4 * 19
  else if di_version =? 4 then EFM32_DI_V4 + 4 * 1
  else 0.

Definition di_msize_addr (di_version : Z) : Z :=
  if di_version =? 1 then EFM32_DI_V1 + 4 * 18
  else if di_version =? 2 then EFM32_DI_V2 + 4 * 20
  else if di_version =? 3 then EFM32_DI_V3 + 4 * 18
  else if di_version =? 4 then EFM32_DI_V4 + 4 * 3
  else 0.

Definition EFM32_UNKNOWN_FAMILY := 9999.

Record efm32_device_t := mkDev {
  family_id : Z; di_version : Z; name : String.string; flash_page_size : Z;
  msc_addr : Z; has_radio : bool; user_data_size : Z; bootloader_size : Z;
  description : String.string }.

Definition efm32_devices : list efm32_device_t := [
  mkDev 71 1 "EFM32G"%string 512 0x400c0000 false 512 0 "Gecko"%string;
  mkDev 72 1 "EFM32GG"%string 2048 0x400c0000 false 4096 0 "Giant Gecko"%string;
  mkDev 73 1 "EFM32TG"%string 512 0x400c0000 false 512 0 "Tiny Gecko"%string;
  mkDev 74 1 "EFM32LG"%string 2048 0x400c0000 false 2048 0 "Leopard Gecko"%string;
  mkDev 75 1 "EFM32WG"%string 2048 0x400c0000 false 2048 0 "Wonder Gecko"%string;
  mkDev 76 1 "EFM32ZG"%string 1024 0x400c0000 false 1024 0 "Zero Gecko"%string;
  mkDev 77 1 "EFM32HG"%string 1024 0x400c0000 false 1024 0 "Happy Gecko"%string;
  mkDev 120 2 "EZR32WG"%string 2048 0x400c0000 true 2048 0 "EZR Wonder Gecko"%string;
  mkDev 121 2 "EZR32LG"%string 2048 0x400c0000 true 2048 0 "EZR Leopard Gecko"%string;
  mkDev 122 2 "EZR32HG"%string 1024 0x400c0000 true 1024 0 "EZR Happy Gecko"%string;
  mkDev 81 3 "EFM32PG1B"%string 2048 0x400e0000 false 2048 10240 "Pearl Gecko"%string;
  mkDev 83 3 "EFM32JG1B"%string 2048 0x400e0000 false 2048 10240 "Jade Gecko"%string;
  mkDev 85 3 "EFM32PG12B"%string 2048 0x400e0000 false 2048 32768 "Pearl Gecko 12"%string;
  mkDev 87 3 "EFM32JG12B"%string 2048 0x400e0000 false 2048 32768 "Jade Gecko 12"%string;
  mkDev 100 3 "EFM32GG11B"%string 4096 0x40000000 false 4096 32768 "Giant Gecko 11"%string;
  mkDev 103 3 "EFM32TG11B"%string 2048 0x40000000 false 2048 18432 "Tiny Gecko 11"%string;
  mkDev 106 3 "EFM32GG12B"%string 2048 0x40000000 false 2048 32768 "Giant Gecko 12"%string;
  mkDev 16 3 "EFR32MG1P"%string 2048 0x400e0000 true 2048 10240 "Mighty Gecko"%string;
  mkDev 17 3 "EFR32MG1B"%string 2048 0x400e0000 true 2048 10240 "Mighty Gecko"%string;
  mkDev 18 3 "EFR32MG1V"%string 2048 0x400e0000 true 2048 10240 "Mighty Gecko"%string;
  mkDev 19 3 "EFR32BG1P"%string 2048 0x400e0000 true 2048 10240 "Blue Gecko"%string;
  mkDev 20 3 "EFR32BG1B"%string 2048 0x400e0000 true 2048 10240 "Blue Gecko"%string;
  mkDev 21 3 "EFR32BG1V"%string 2048 0x400e0000 true 2048 10240 "Blue Gecko"%string;
  mkDev 25 3 "EFR32FG1P"%string 2048 0x400e0000 true 2048 10240 "Flex Gecko"%string;
  mkDev 26 3 "EFR32FG1B"%string 2048 0x400e0000 true 2048 10240 "Flex Gecko"%string;
  mkDev 27 3 "EFR32FG1V"%string 2048 0x400e0000 true 2048 10240 "Flex Gecko"%string;
  mkDev 28 3 "EFR32MG12P"%string 2048 0x400e0000 true 2048 32768 "Mighty Gecko"%string;
  mkDev 29 3 "EFR32MG12B"%string 2048 0x400e0000 true 2048 32768 "Mighty Gecko"%string;
  mkDev 30 3 "EFR32MG12V"%string 2048 0x400e0000 true 2048 32768 "Mighty Gecko"%string;
  mkDev 31 3 "EFR32BG12P"%string 2048 0x400e0000 true 2048 32768 "Blue Gecko"%string;
  mkDev 32 3 "EFR32BG12B"%string 2048 0x400e0000 true 2048 32768 "Blue Gecko"%string;
  mkDev 33 3 "EFR32BG12V"%string 2048 0x400e0000 true 2048 32768 "Blue Gecko"%string;
  mkDev 37 3 "EFR32FG12P"%string 2048 0x400e0000 true 2048 32768 "Flex Gecko"%string;
  mkDev 38 3 "EFR32FG12B"%string 2048 0x400e0000 true 2048 32768 "Flex Gecko"%string;
  mkDev 39 3 "EFR32FG12V"%string 2048 0x400e0000 true 2048 32768 "Flex Gecko"%string;
  mkDev 40 3 "EFR32MG13P"%string 2048 0x400e0000 true 2048 16384 "Mighty Gecko"%string;
  mkDev 41 3 "EFR32MG13B"%string 2048 0x400e0000 true 2048 16384 "Mighty Gecko"%string;
  mkDev 42 3 "EFR32MG13V"%string 2048 0x400e0000 true 2048 16384 "Mighty Gecko"%string;
  mkDev 43 3 "EFR32BG13P"%string 2048 0x400e0000 true 2048 16384 "Blue Gecko"%string;
  mkDev 44 3 "EFR32BG13B"%string 2048 0x400e0000 true 2048 16384 "Blue Gecko"%string;
  mkDev 45 3 "EFR32BG13V"%string 2048 0x400e0000 true 2048 16384 "Blue Gecko"%string;
  mkDev 45 3 "EFR32ZG13P"%string 2048 0x400e0000 true 2048 16384 "Zero Gecko"%string;
  mkDev 49 3 "EFR32FG13P"%string 2048 0x400e0000 true 2048 16384 "Flex Gecko"%string;
  mkDev 50 3 "EFR32FG13B"%string 2048 0x400e0000 true 2048 16384 "Flex Gecko"%string;
  mkDev 51 3 "EFR32FG13V"%string 2048 0x400e0000 true 2048 16384 "Flex Gecko"%string;
  mkDev 52 3 "EFR32MG14P"%string 2048 0x400e0000 true 2048 16384 "Mighty Gecko"%string;
  mkDev 53 3 "EFR32MG14B"%string 2048 0x400e0000 true 2048 16384 "Mighty Gecko"%string;
  mkDev 54 3 "EFR32MG14V"%string 2048 0x400e0000 true 2048 16384 "Mighty Gecko"%string;
  mkDev 55 3 "EFR32BG14P"%string 2048 0x400e0000 true 2048 16384 "Blue Gecko"%string;
  mkDev 56 3 "EFR32BG14B"%string 2048 0x400e0000 true 2048 16384 "Blue Gecko"%string;
  mkDev 57 3 "EFR32BG14V"%string 2048 0x400e0000 true 2048 16384 "Blue Gecko"%string;
  mkDev 58 3 "EFR32ZG14P"%string 2048 0x400e0000 true 2048 16384 "Zero Gecko"%string;
  mkDev 61 3 "EFR32FG14P"%string 2048 0x400e0000 true 2048 16384 "Flex Gecko"%string;
  mkDev 62 3 "EFR32FG14B"%string 2048 0x400e0000 true 2048 16384 "Flex Gecko"%string;
  mkDev 63 3 "EFR32FG14V"%string 2048 0x400e0000 true 2048 16384 "Flex Gecko"%string;
  mkDev 128 4 "EFR32xG21"%string 8192 0x40030000 true 1024 0 "Flex Gecko"%string;
  mkDev 129 4 "EFR32xG21"%string 8192 0x40030000 true 1024 0 "Mighty Gecko"%string;
  mkDev 130 4 "EFR32xG21"%string 8192 0x40030000 true 1024 0 "Blue Gecko"%string;
  mkDev 221 4 "EFR32xG22"%string 8192 0x40030000 true 1024 0 "Flex Gecko"%string;
  mkDev 222 4 "EFR32xG22"%string 8192 0x40030000 true 1024 0 "Mighty Gecko"%string;
  mkDev 223 4 "EFR32xG22"%string 8192 0x40030000 true 1024 0 "Blue Gecko"%string
].

Definition efm32_devices_nb : Z := Z.of_nat (length efm32_devices).

Definition u8 (x : Z) : Z := x mod 2 ^ 8.
Definition u16 (x : Z) : Z := x mod 2 ^ 16.

(** [efm32_get_device]: [index] is a [size_t], so a negative [int]
    argument wraps to a huge index and is rejected as well. *)
Definition efm32_get_device (index : Z) : option efm32_device_t :=
  if (index <? 0) || (index >=? efm32_devices_nb) then None
  else nth_error efm32_devices (Z.to_nat index).

Fixpoint family_search (devs : list efm32_device_t) (i : Z) (part_family : Z) : Z :=
  match devs with
  | [] => EFM32_UNKNOWN_FAMILY
  | d :: devs => if family_id d =? part_family then i else family_search devs (i + 1) part_family
  end.

(** The probed target as [efm32_probe] sets it up. *)
Record efm32_target := mkTarget {
  t_di_version : Z; t_device_index : Z; t_driver2 : Z; t_part_number : Z;
  t_ram_size : Z; t_flash : list (Z * Z * Z) (* start, length, blocksize *) }.

Section Probe.
(** [target_mem_read32] over an abstract target state. *)
Context {S : Type}.
Variable target_mem_read32 : S -> Z -> S * Z.

Definition efm32_read_part_number (s : S) (di_version : Z) : S * Z :=
  let addr := di_part_addr di_version in
  if addr =? 0 then (s, 0) else
  let (s, v) := target_mem_read32 s addr in
  (s, u16 (Z.land (Z.shiftr v EFM32_DI_PART_NUMBER_OFST) EFM32_DI_PART_NUMBER_MASK)).

Definition efm32_read_part_family (s : S) (di_version : Z) : S * Z :=
  if (di_version =? 1) || (di_version =? 2) || (di_version =? 3) then
    let (s, reg) := target_mem_read32 s (di_part_addr di_version) in
    (s, u8 (Z.land (Z.shiftr reg EFM32_DI_PART_FAMILY_OFST) EFM32_DI_PART_FAMILY_MASK))
  else if di_version =? 4 then
    let (s, reg) := target_mem_read32 s (di_part_addr di_version) in
    let part := u8 (Z.land (Z.shiftr reg EFM32_DI_V4_PART_FAMILYNUM_OFST)
                      EFM32_DI_V4_PART_FAMILYNUM_MASK) in
    (s, u8 (part + u8 (Z.land (Z.shiftr reg EFM32_DI_V4_PART_FAMILY_OFST)
                         EFM32_DI_V4_PART_FAMILY_MASK)))
  else (s, 0).

Definition efm32_read_flash_size (s : S) (di_version : Z) : S * Z :=
  let addr := di_msize_addr di_version in
  if addr =? 0 then (s, 0) else
  let (s, v) := target_mem_read32 s addr in
  (s, u16 (Z.land (Z.shiftr v EFM32_DI_MSIZE_FLASH_OFST) EFM32_DI_MSIZE_FLASH_MASK)).

Definition efm32_read_ram_size (s : S) (di_version : Z) : S * Z :=
  let addr := di_msize_addr di_version in
  if addr =? 0 then (s, 0) else
  let (s, v) := target_mem_read32 s addr in
  (s, u16 (Z.land (Z.shiftr v EFM32_DI_MSIZE_SRAM_OFST) EFM32_DI_MSIZE_SRAM_MASK)).

Definition efm32_lookup_device_index (s : S) (di_version : Z) : S * Z :=
  let (s, part_family) := efm32_read_part_family s di_version in
  (s, family_search efm32_devices 0 part_family).

(** [efm32_probe]: [ap_idcode] is [ap->dp->idcode].  The DI dump loop
    only feeds [DEBUG] output and is left out; [None] is [return false]. *)
Definition efm32_probe (s : S) (ap_idcode : Z) : S * option efm32_target :=
  let di := if ap_idcode =? 0x2BA01477 then Some 3
            else if ap_idcode =? 0x0BC11477 then Some 2
            else if ap_idcode =? 0x6BA02477 then Some 4
            else None in
  match di with
  | None => (s, None)
  | Some di_version =>
      let (s, device_index) := efm32_lookup_device_index s di_version in
      if device_index =? EFM32_UNKNOWN_FAMILY then (s, None) else
      match efm32_get_device device_index with
      | None => (s, None)
      | Some device =>
          let (s, part_number) := efm32_read_part_number s di_version in
          let (s, flash_kib) := efm32_read_flash_size s di_version in
          let flash_size := flash_kib * 0x400 in
          let (s, ram_kib) := efm32_read_ram_size s di_version in
          let ram_size := ram_kib * 0x400 in
          let page := flash_page_size device in
          (s, Some (mkTarget di_version device_index (u8 (u8 device_index + 32))
                 part_number ram_size
                 ([(0, flash_size, page)]
                  ++ (if user_data_size device =? 0 then []
                      else [(EFM32_USER_DATA, user_data_size device, page)])
                  ++ (if bootloader_size device =? 0 then []
                      else [(EFM32_BOOTLOADER, bootloader_size device, page)]))))
      end
  end.
End Probe.

Section Erase.
(** The target accessors [efm32_flash_erase] uses. *)
Context {S : Type}.
Variable target_mem_read32 : S -> Z -> S * Z.
Variable target_mem_write32 : S -> Z -> Z -> S.
Variable target_check_error : S -> S * bool.

(** [while (target_mem_read32(t, STATUS) & BUSY) if (target_check_error(t))
    return -1;]: [Some (s, true)] is the abort. *)
Fixpoint efm32_poll_busy (fuel : nat) (s : S) (msc : Z) : option (S * bool) :=
  match fuel with
  | O => None
  | Datatypes.S fuel =>
      let (s, st) := target_mem_read32 s (EFM32_MSC_STATUS msc) in
      if Z.land st EFM32_MSC_STATUS_BUSY =? 0 then Some (s, false) else
      let (s, err) := target_check_error s in
      if err then Some (s, true) else efm32_poll_busy fuel s msc
  end.

(** The [while (len)] loop; [blocksize] is [f->blocksize]. *)
Fixpoint efm32_erase_loop (fuel pfuel : nat) (s : S) (msc blocksize addr len : Z)
  : option (S * Z) :=
  match fuel with
  | O => None
  | Datatypes.S fuel =>
      if len =? 0 then Some (s, 0) else
      let s := target_mem_write32 s (EFM32_MSC_ADDRB msc) addr in
      let s := target_mem_write32 s (EFM32_MSC_WRITECMD msc) EFM32_MSC_WRITECMD_LADDRIM in
      let s := target_mem_write32 s (EFM32_MSC_WRITECMD msc) EFM32_MSC_WRITECMD_ERASEPAGE in
      match efm32_poll_busy pfuel s msc with
      | None => None
      | Some (s, true) => Some (s, -1)
      | Some (s, false) =>
          efm32_erase_loop fuel pfuel s msc blocksize (u32 (addr + blocksize))
            (if len >? blocksize then len - blocksize else 0)
      end
  end.

(** [efm32_flash_erase]: [driver2] is [t->driver[2]]; [return true] is 1. *)
Definition efm32_flash_erase (fuel pfuel : nat) (s : S) (driver2 blocksize addr len : Z)
  : option (S * Z) :=
  match efm32_get_device (driver2 - 32) with
  | None => Some (s, 1)
  | Some device =>
      let msc := msc_addr device in
      let s := target_mem_write32 s (EFM32_MSC_LOCK msc) EFM32_MSC_LOCK_LOCKKEY in
      let s := target_mem_write32 s (EFM32_MSC_WRITECTRL msc) 1 in
      efm32_erase_loop fuel pfuel s msc blocksize addr len
  end.
End Erase.

(** *** A recording target

    Memory writes, memory reads and error checks are appended to a trace;
    reads return the next value of a response list (0 once exhausted) and
    error checks the next value of a list of flags ([false] once exhausted). *)
Inductive mem_event := MW (a v : Z) | MR (a v : Z) | CE (e : bool).

Record efm_rec := mkEfm { etrace : list mem_event; reads : list Z; errs : list bool }.

Definition efm_read32 (s : efm_rec) (a : Z) : efm_rec * Z :=
  let v := hd 0 (reads s) in (mkEfm (etrace s ++ [MR a v]) (tl (reads s)) (errs s), v).

Definition efm_write32 (s : efm_rec) (a v : Z) : efm_rec :=
  mkEfm (etrace s ++ [MW a v]) (reads s) (errs s).

Definition efm_check_error (s : efm_rec) : efm_rec * bool :=
  let e := hd false (errs s) in (mkEfm (etrace s ++ [CE e]) (reads s) (tl (errs s)), e).

(** The register sequence of the flash erase as the driver documents it:
    each page is addressed, latched and erased, then STATUS is polled. *)
Definition erase_page_events (msc addr : Z) : list mem_event :=
  [MW (EFM32_MSC_ADDRB msc) addr; MW (EFM32_MSC_WRITECMD msc) EFM32_MSC_WRITECMD_LADDRIM;
   MW (EFM32_MSC_WRITECMD msc) EFM32_MSC_WRITECMD_ERASEPAGE].

Definition busy (v : Z) : Prop := Z.land v EFM32_MSC_STATUS_BUSY <> 0.

Definition busy_polls (msc : Z) (vs : list Z) : list mem_event :=
  concat (map (fun v => [MR (EFM32_MSC_STATUS msc) v; CE false]) vs).

(** STATUS read busy (error check passing) until it reads clear. *)
Definition poll_ok (msc : Z) (e : list mem_event) : Prop :=
  exists vs v, Forall busy vs /\ ~ busy v /\ e = busy_polls msc vs ++ [MR (EFM32_MSC_STATUS msc) v].

(** STATUS read busy until an error check fails. *)
Definition poll_abort (msc : Z) (e : list mem_event) : Prop :=
  exists vs v, Forall busy vs /\ busy v /\
    e = busy_polls msc vs ++ [MR (EFM32_MSC_STATUS msc) v; CE true].

(** Pages erased one after the other, the address advancing by
    [blocksize] (modulo 2^32). *)
Fixpoint erase_pages (msc blocksize addr : Z) (polls : list (list mem_event)) : list mem_event :=
  match polls with
  | [] => []
  | p :: polls => erase_page_events msc addr ++ p ++ erase_pages msc blocksize (u32 (addr + blocksize)) polls
  end.

(** The whole erase of [len] bytes from [addr] with MSC at [msc]: unlock,
    enable writes, then either all [ceil (len / blocksize)] pages erased and
    0 returned, or some pages erased, the next one aborted and -1 returned. *)
Definition efm32_erase_spec (msc blocksize addr len : Z) (s s' : efm_rec) (r : Z) : Prop :=
  let unlock := [MW (EFM32_MSC_LOCK msc) EFM32_MSC_LOCK_LOCKKEY; MW (EFM32_MSC_WRITECTRL msc) 1] in
  exists polls, Forall (poll_ok msc) polls /\
    ((r = 0 /\ Z.of_nat (length polls) = (len + blocksize - 1) / blocksize /\
      etrace s' = etrace s ++ unlock ++ erase_pages msc blocksize addr polls) \/
     (r = -1 /\ Z.of_nat (length polls) < (len + blocksize - 1) / blocksize /\
      exists ab, poll_abort msc ab /\
      etrace s' = etrace s ++ unlock ++ erase_pages msc blocksize addr polls
                  ++ erase_page_events msc (u32 (addr + Z.of_nat (length polls) * blocksize)) ++ ab)).

(** A read of the PART or MSIZE word of the DI page of schema [v]. *)
Definition di_read (v : Z) (e : mem_event) : Prop :=
  exists y, e = MR (di_part_addr v) y \/ e = MR (di_msize_addr v) y.

(** *** The Authentication Access Port *)

Definition EFM32_AAP_IDR := 0x06E60001.
Definition EFM32_APP_IDR_MASK := 0x0FFFFF0F.
Definition AAP_CMD := APreg 0x00.
Definition AAP_CMDKEY := APreg 0x04.
Definition AAP_STATUS := APreg 0x08.
Definition AAP_STATUS_ERASEBUSY := 0x1.
Definition CMDKEY := 0xCFACC118.

Record aap_target := mkAAP { aap_ap : ADIv5_AP; aap_revision : Z }.

(** [efm32_aap_probe]: the target it creates, if any.  Its only AP access
    feeds a [DEBUG] message and is left out. *)
Definition efm32_aap_probe (ap : ADIv5_AP) : option aap_target :=
  if Z.land (idr ap) EFM32_APP_IDR_MASK =? EFM32_AAP_IDR then
    Some (mkAAP ap (u16 (Z.shiftr (Z.land (idr ap) 0xF0000000) 28)))
  else None.

Section AAP.
Context {S : Type}.
Variable low_access : S -> rnw -> reg -> Z -> S * Z.
Variable dp_read : S -> reg -> S * Z.

(** [do status = adiv5_ap_read(ap, AAP_STATUS); while (status & ERASEBUSY);] *)
Fixpoint aap_poll (fuel : nat) (ap : ADIv5_AP) (s : S) : option S :=
  match fuel with
  | O => None
  | Datatypes.S fuel =>
      let (s, status) := adiv5_ap_read low_access dp_read ap s AAP_STATUS in
      if Z.land status AAP_STATUS_ERASEBUSY =? 0 then Some s else aap_poll fuel ap s
  end.

Definition efm32_aap_cmd_device_erase (fuel : nat) (ap : ADIv5_AP) (s : S) : option (S * bool) :=
  let (s, status) := adiv5_ap_read low_access dp_read ap s AAP_STATUS in
  if negb (Z.land status AAP_STATUS_ERASEBUSY =? 0) then Some (s, false) else
  let s := adiv5_ap_write low_access ap s AAP_CMDKEY CMDKEY in
  let s := adiv5_ap_write low_access ap s AAP_CMD 1 in
  match aap_poll fuel ap s with
  | None => None
  | Some s =>
      let (s, status) := adiv5_ap_read low_access dp_read ap s AAP_STATUS in
      Some (s, true)
  end.
End AAP.

(** The recorder's view of one AP register read and write. *)
Definition ap_read_events (ap : ADIv5_AP) (r : reg) (v : Z) : list event :=
  [EvLow ADIV5_LOW_WRITE ADIV5_DP_SELECT (ap_select ap r); EvDpRead r v].

Definition ap_write_events (ap : ADIv5_AP) (r : reg) (v : Z) : list event :=
  [EvLow ADIV5_LOW_WRITE ADIV5_DP_SELECT (ap_select ap r); EvLow ADIV5_LOW_WRITE r v].

Definition aap_busy (v : Z) : Prop := Z.land v AAP_STATUS_ERASEBUSY <> 0.

(** The device erase as the driver documents it: STATUS is read; if an
    erase is in progress the command fails, otherwise the key and the
    DEVICEERASE command are written and STATUS is polled until clear (and
    read once more) before success is reported. *)
Definition aap_erase_spec (ap : ADIv5_AP) (s s' : recorder) (b : bool) : Prop :=
  exists v0,
    (aap_busy v0 /\ b = false /\ trace s' = trace s ++ ap_read_events ap AAP_STATUS v0) \/
    (~ aap_busy v0 /\ b = true /\
     exists vs v vfin, Forall aap_busy vs /\ ~ aap_busy v /\
       trace s' = trace s ++ ap_read_events ap AAP_STATUS v0
                  ++ ap_write_events ap AAP_CMDKEY CMDKEY ++ ap_write_events ap AAP_CMD 1
                  ++ concat (map (ap_read_events ap AAP_STATUS) vs)
                  ++ ap_read_events ap AAP_STATUS v ++ ap_read_events ap AAP_STATUS vfin).

End EFM32.


Module DiscoveryX.
Import ADIv5 Discovery.

(** The PIDR of the component at [addr] as [adiv5_ap_read_pidr] assembles
    it from a flat memory. *)
Definition mem_pidr (mem : Z -> Z) (addr : Z) : Z :=
  let a := Z.land addr (not32 3) in
  Z.lor (u64 (Z.shiftl (mem_id_loop mem 4 0 (u32 (a + PIDR4_OFFSET)) 0) 32))
        (mem_id_loop mem 4 0 (u32 (a + PIDR0_OFFSET)) 0).

End DiscoveryX.

(** *** The remaining EFM32 commands and DI readers *)

Module EFM32Commands.
Import ADIv5 EFM32.

Definition EFM32_MSC_WDATA (msc : Z) : Z := msc + 0x018.
Definition EFM32_MSC_MASSLOCK (msc : Z) : Z := msc + (if msc =? 0x40030000 then 0x40 else 0x54).
Definition EFM32_MSC_MASSLOCK_LOCKKEY := 0x631a.
Definition EFM32_MSC_WRITECMD_WRITEONCE := 0x8.
Definition EFM32_MSC_WRITECMD_ERASEMAIN0 := 0x100.

Definition EFM32_LOCK_BITS := EFM32_INFO + 0x04000.
Definition EFM32_LOCK_BITS_CLW0 := EFM32_LOCK_BITS + 4 * 122.
Definition EFM32_CLW0_BOOTLOADER_ENABLE := 0x2.

Definition EFM32_DI_MEMINFO_FLASHPAGESIZE_OFST := 24.
Definition EFM32_DI_MEMINFO_FLASHPAGESIZE_MASK := 0xFF.
Definition EFM32_DI_V4_MEMINFO_FLASHPAGESIZE_OFST := 0.
Definition EFM32_DI_V4_MEMINFO_FLASHPAGESIZE_MASK := 0xFF.
Definition EFM32_DI_PKGINFO_TEMPGRADE_OFST := 0.
Definition EFM32_DI_PKGINFO_PKGTYPE_OFST := 8.
Definition EFM32_DI_PKGINFO_PINCOUNT_OFST := 16.
Definition EFM32_DI_PKGINFO_TEMPGRADE_MASK := 0xFF.
Definition EFM32_DI_PKGINFO_PKGTYPE_MASK := 0xFF.
Definition EFM32_DI_PKGINFO_PINCOUNT_MASK := 0xFF.

(** [(addr_l, addr_h)] of [efm32_read_unique]: [UNIQUEL]/[UNIQUEH] of
    [di_v1_t] .. [di_v3_t], [EUI64L]/[EUI64H] of [di_v4_t]. *)
Definition di_unique_addrs (di_version : Z) : Z * Z :=
  if di_version =? 1 then (EFM32_DI_V1 + 4 * 16, EFM32_DI_V1 + 4 * 17)
  else if di_version =? 2 then (EFM32_DI_V2 + 4 * 18, EFM32_DI_V2 + 4 * 19)
  else if di_version =? 3 then (EFM32_DI_V3 + 4 * 16, EFM32_DI_V3 + 4 * 17)
  else if di_version =? 4 then (EFM32_DI_V4 + 4 * 18, EFM32_DI_V4 + 4 * 19)
  else (0, 0).

(** [&((di_vN_t * ) EFM32_DI_VN)->MEMINFO]. *)
Definition di_meminfo_addr (di_version : Z) : Z :=
  if di_version =? 1 then EFM32_DI_V1 + 4 * 13
  else if di_version =? 2 then EFM32_DI_V2 + 4 * 15
  else if di_version =? 3 then EFM32_DI_V3 + 4 * 13
  else if di_version =? 4 then EFM32_DI_V4 + 4 * 2
  else 0.

(** The word [efm32_read_miscchip] reads: [MEMINFO] of [di_v3_t],
    [PKGINFO] of [di_v4_t]. *)
Definition di_pkginfo_addr (di_version : Z) : Z :=
  if di_version =? 3 then EFM32_DI_V3 + 4 * 13
  else if di_version =? 4 then EFM32_DI_V4 + 4 * 4
  else 0.

(** [&((di_v2_t * ) EFM32_DI_V2)->RADIO1]. *)
Definition di_radio1_addr : Z := EFM32_DI_V2 + 4 * 1.

Record efm32_di_miscchip_t := mkMisc { pincount : Z; pkgtype : Z; tempgrade : Z }.

Definition efm32_di_pkgtypes : list (Z * string) :=
  [(74, "WLCSP"%string); (76, "BGA"%string); (77, "QFN"%string); (81, "QFxP"%string)].

Definition efm32_di_tempgrades : list (Z * string) :=
  [(0, "-40 to 85degC"%string); (1, "-40 to 125degC"%string); (2, "-40 to 105degC"%string); (3, "0 to 70degC"%string)].

(** The [for] loops of [efm32_cmd_efm_info] over these tables: every
    matching entry is assigned, so the last one wins; [None] when none
    matches (the pointer keeps its initial value). *)
Fixpoint table_last_match (tbl : list (Z * string)) (k : Z) (acc : option string) : option string :=
  match tbl with
  | [] => acc
  | (k', n) :: tbl => table_last_match tbl k (if k' =? k then Some n else acc)
  end.

(** What [efm32_cmd_efm_info] prints, once it gets to the end. *)
Record efm_info_report := mkReport {
  r_name : string; r_part_number : Z; r_flash_kib : Z; r_ram_kib : Z;
  r_page_reported : Z; r_page_used : Z; r_page_warning : bool;
  r_package : option (string * Z); r_tempgrade : option string; r_radio : option Z }.

(** How [efm32_cmd_efm_info] ends: the bad-version message, no device,
    a dereference of the [NULL] package pointer, a dereference of the
    uninitialised temperature-grade pointer, or the full report. *)
Inductive efm_info_outcome :=
| InfoBadVersion (di_version : Z)
| InfoNoDevice
| InfoNullPackage
| InfoUninitTempgrade
| InfoDone (r : efm_info_report).

(** The characters [variant_string] starts with, as [efm32_probe] formats
    them with ["%c\b%c\b%s ..."]: the DI version and the device index,
    each offset into the printable range. *)
Definition efm32_variant_prefix (di_version device_index : Z) : list Z :=
  [u8 (di_version + 48); 8; u8 (u8 device_index + 32); 8].

(** [uint8_t di_version = t->driver[0] - 48] of the commands. *)
Definition driver_di_version (driver : list Z) : Z := u8 (nth 0 driver 0 - 48).

Section Commands.
Context {S : Type}.
Variable target_mem_read32 : S -> Z -> S * Z.
Variable target_mem_read16 : S -> Z -> S * Z.
Variable target_mem_write32 : S -> Z -> Z -> S.
Variable target_check_error : S -> S * bool.

Definition efm32_read_unique (s : S) (di_version : Z) : S * Z :=
  let '(addr_l, addr_h) := di_unique_addrs di_version in
  if negb (addr_l =? 0) && negb (addr_h =? 0) then
    let (s, h) := target_mem_read32 s addr_h in
    let unique := u64 (Z.shiftl h 32) in
    let (s, l) := target_mem_read32 s addr_l in
    (s, Z.lor unique l)
  else (s, 0).

(** [efm32_read_flash_page_size].  [1 << (size + 10)] is an [int] shift,
    defined in C only for [size + 10 < 31]; the result is stored in a
    [uint32_t]. *)
Definition efm32_read_flash_page_size (s : S) (di_version : Z) : S * Z :=
  let addr := di_meminfo_addr di_version in
  let '(ofst, mask) :=
    if di_version =? 4 then (EFM32_DI_V4_MEMINFO_FLASHPAGESIZE_OFST, EFM32_DI_V4_MEMINFO_FLASHPAGESIZE_MASK)
    else (EFM32_DI_MEMINFO_FLASHPAGESIZE_OFST, EFM32_DI_MEMINFO_FLASHPAGESIZE_MASK) in
  if addr =? 0 then (s, 0) else
  let (s, v) := target_mem_read32 s addr in
  let size := Z.land (Z.shiftr v ofst) mask in
  (s, u32 (Z.shiftl 1 (size + 10))).

Definition efm32_read_radio_part_number (s : S) (di_version : Z) : S * Z :=
  if di_version =? 2 then target_mem_read16 s di_radio1_addr else (s, 0).

Definition efm32_read_miscchip (s : S) (di_version : Z) : S * efm32_di_miscchip_t :=
  let addr := di_pkginfo_addr di_version in
  if addr =? 0 then (s, mkMisc 0 0 0) else
  let (s, pkginfo) := target_mem_read32 s addr in
  (s, mkMisc (u8 (Z.land (Z.shiftr pkginfo EFM32_DI_PKGINFO_PINCOUNT_OFST) EFM32_DI_PKGINFO_PINCOUNT_MASK))
             (u8 (Z.land (Z.shiftr pkginfo EFM32_DI_PKGINFO_PKGTYPE_OFST) EFM32_DI_PKGINFO_PKGTYPE_MASK))
             (u8 (Z.land (Z.shiftr pkginfo EFM32_DI_PKGINFO_TEMPGRADE_OFST) EFM32_DI_PKGINFO_TEMPGRADE_MASK))).

(** [efm32_cmd_erase_all]: [Some (s, b)] is [return b]; the poll is
    bounded by [fuel]. *)
Definition efm32_cmd_erase_all (fuel : nat) (s : S) (driver2 : Z) : option (S * bool) :=
  match efm32_get_device (driver2 - 32) with
  | None => Some (s, true)
  | Some device =>
      let msc := msc_addr device in
      let s := target_mem_write32 s (EFM32_MSC_WRITECTRL msc) 1 in
      let s := target_mem_write32 s (EFM32_MSC_MASSLOCK msc) EFM32_MSC_MASSLOCK_LOCKKEY in
      let s := target_mem_write32 s (EFM32_MSC_WRITECMD msc) EFM32_MSC_WRITECMD_ERASEMAIN0 in
      match efm32_poll_busy target_mem_read32 target_check_error fuel s msc with
      | None => None
      | Some (s, true) => Some (s, false)
      | Some (s, false) =>
          let s := target_mem_write32 s (EFM32_MSC_MASSLOCK msc) 0 in
          Some (s, true)
      end
  end.

(** [efm32_cmd_serial]: the unique number it prints. *)
Definition efm32_cmd_serial (s : S) (driver : list Z) : S * Z :=
  efm32_read_unique s (driver_di_version driver).

(** [efm32_cmd_bootloader]: [argc] and the first character [arg1c] of
    [argv[1]] (read only when [argc <> 1]). *)
Definition efm32_cmd_bootloader (fuel : nat) (s : S) (driver2 argc arg1c : Z) : option (S * bool) :=
  match efm32_get_device (driver2 - 32) with
  | None => Some (s, true)
  | Some device =>
      let msc := msc_addr device in
      if bootloader_size device =? 0 then Some (s, false) else
      let (s, clw0) := target_mem_read32 s EFM32_LOCK_BITS_CLW0 in
      if argc =? 1 then Some (s, true) else
      let bootloader_status := arg1c =? 101 (* 'e' *) in
      let clw0 := Z.land clw0 (if bootloader_status then 0xFFFFFFFF
                               else not32 EFM32_CLW0_BOOTLOADER_ENABLE) in
      let s := target_mem_write32 s (EFM32_MSC_LOCK msc) EFM32_MSC_LOCK_LOCKKEY in
      let s := target_mem_write32 s (EFM32_MSC_WRITECTRL msc) 1 in
      let s := target_mem_write32 s (EFM32_MSC_ADDRB msc) EFM32_LOCK_BITS_CLW0 in
      let s := target_mem_write32 s (EFM32_MSC_WRITECMD msc) EFM32_MSC_WRITECMD_LADDRIM in
      let s := target_mem_write32 s (EFM32_MSC_WDATA msc) clw0 in
      let s := target_mem_write32 s (EFM32_MSC_WRITECMD msc) EFM32_MSC_WRITECMD_WRITEONCE in
      match efm32_poll_busy target_mem_read32 target_check_error fuel s msc with
      | None => None
      | Some (s, true) => Some (s, false)
      | Some (s, false) => Some (s, true)
      end
  end.

(** [efm32_cmd_efm_info] ([driver0], [driver2]: [t->driver[0]] and
    [t->driver[2]]). *)
Definition efm32_cmd_efm_info (s : S) (driver0 driver2 : Z) : S * efm_info_outcome :=
  let di_version := u8 (driver0 - 48) in
  if negb ((di_version =? 1) || (di_version =? 2) || (di_version =? 3) || (di_version =? 4))
  then (s, InfoBadVersion di_version) else
  match efm32_get_device (driver2 - 32) with
  | None => (s, InfoNoDevice)
  | Some device =>
      let (s, part_number) := efm32_read_part_number target_mem_read32 s di_version in
      let (s, flash_kib) := efm32_read_flash_size target_mem_read32 s di_version in
      let (s, ram_kib) := efm32_read_ram_size target_mem_read32 s di_version in
      let (s, reported) := efm32_read_flash_page_size s di_version in
      let page := flash_page_size device in
      let report := mkReport (name device) part_number flash_kib ram_kib reported page (reported <? page) in
      if (di_version =? 3) || (di_version =? 4) then
        let (s, miscchip) := efm32_read_miscchip s di_version in
        match table_last_match efm32_di_pkgtypes (pkgtype miscchip) None with
        | None => (s, InfoNullPackage)
        | Some pkgname =>
            match table_last_match efm32_di_tempgrades (tempgrade miscchip) None with
            | None => (s, InfoUninitTempgrade)
            | Some tname =>
                (s, InfoDone (report (Some (pkgname, pincount miscchip)) (Some tname) None))
            end
        end
      else if (di_version =? 2) && has_radio device then
        let (s, radio_number) := efm32_read_radio_part_number s di_version in
        (s, InfoDone (report None None (Some radio_number)))
      else (s, InfoDone (report None None None))
  end.
End Commands.

(** A 16-bit read on the recording target: logged as a read of the word,
    its low half returned. *)
Definition efm_read16 (s : efm_rec) (a : Z) : efm_rec * Z :=
  let (s, v) := efm_read32 s a in (s, u16 v).

End EFM32Commands.


(** * Properties *)

(** ** The memory-access engine *)

Module TransportFacts.
Import ADIv5.









Lemma map_seq_succ {A} (f : nat -> A) (n : nat) :
  map f (seq 0 (S n)) = f O :: map (fun k => f (S k)) (seq 0 n).
Proof. simpl. f_equal. rewrite <- seq_shift, map_map. reflexivity. Qed.



Lemma ALIGNOF_mod (x : Z) : 0 <= x ->
  x mod 2 ^ align_val (ALIGNOF x) = 0 /\ ALIGNOF x <> ALIGN_DWORD.
Proof.
  intros Hx. unfold ALIGNOF.
  change 3 with (Z.ones 2). change 1 with (Z.ones 1).
  rewrite !Z.land_ones by lia.
  destruct (Z.eqb_spec (x mod 2 ^ 2) 0); [split; [assumption|discriminate]|].
  destruct (Z.eqb_spec (x mod 2 ^ 1) 0); [split; [assumption|discriminate]|].
  split; [simpl; apply Z.mod_1_r|discriminate].
Qed.

Lemma land_3 (x : Z) : Z.land x 3 = x mod 4.
Proof. change 3 with (Z.ones 2). rewrite Z.land_ones by lia. reflexivity. Qed.

Lemma land_1 (x : Z) : Z.land x 1 = x mod 2.
Proof. change 1 with (Z.ones 1) at 1. rewrite Z.land_ones by lia. reflexivity. Qed.

Lemma mem_read_count (src len : Z) : 0 < len ->
  let al := align_min (ALIGNOF src) (ALIGNOF len) in
  al <> ALIGN_DWORD /\ 1 <= Z.shiftr len (align_val al) /\
  Z.shiftr len (align_val al) * 2 ^ align_val al = len.
Proof.
  intros Hl al. unfold al, align_min, ALIGNOF. rewrite !land_3, !land_1.
  pose proof (Z.div_mod len 4). pose proof (Z.mod_pos_bound len 4).
  pose proof (Z.div_mod len 2). pose proof (Z.mod_pos_bound len 2).
  destruct (Z.eqb_spec (src mod 4) 0), (Z.eqb_spec (len mod 4) 0);
    try destruct (Z.eqb_spec (src mod 2) 0); try destruct (Z.eqb_spec (len mod 2) 0);
    simpl; rewrite ?Z.shiftr_div_pow2 by lia;
    change (2 ^ 2) with 4; change (2 ^ 1) with 2; change (2 ^ 0) with 1;
    change (Z.pow_pos 2 2) with 4; change (Z.pow_pos 2 1) with 2;
    (split; [discriminate|]); rewrite ?Z.div_1_r; lia.
Qed.





Lemma rec_read_loop (al : align) (n : nat) : forall s dest src osrc,
  let r := mem_read_loop rec_low_access al n s dest src osrc in
  exists chunks,
    length chunks = n /\ Forall (fun c => rearm_ok (snd c)) chunks /\
    trace (fst (fst r)) = trace s ++ concat (map chunk_events chunks) /\
    forall x, snd (fst r) ++ [extract (snd r) x al] = dest ++ lanes_of al src (map fst chunks ++ [x]).
Proof.
  induction n as [|n IH]; intros s dest src osrc r.
  - exists []. subst r. simpl. rewrite app_nil_r. repeat split; auto.
  - subst r. destruct s as [tr rs]. cbn [mem_read_loop rec_low_access trace responses].
    set (d := hd 0 rs). set (src1 := u32 (src + 2 ^ align_val al)).
    destruct (tar_wrapped src1 osrc).
    + cbn [fst trace responses].
      set (s1 := mkRec _ _).
      destruct (IH s1 (dest ++ [extract src d al]) src1 src1) as [ch [Hl [Hf [Ht Hx]]]].
      exists ((d, [EvLow ADIV5_LOW_WRITE ADIV5_AP_TAR src1; EvLow ADIV5_LOW_READ ADIV5_AP_DRW (hd 0 (tl rs))]) :: ch).
      split; [simpl; auto|]. split; [constructor; [right; do 2 eexists; reflexivity|exact Hf]|].
      split.
      * rewrite Ht. unfold s1. simpl. rewrite <- !app_assoc. reflexivity.
      * intros x. rewrite Hx. simpl. rewrite <- app_assoc. reflexivity.
    + cbn [fst trace responses].
      destruct (IH (mkRec (tr ++ [EvLow ADIV5_LOW_READ ADIV5_AP_DRW d]) (tl rs))
                   (dest ++ [extract src d al]) src1 osrc) as [ch [Hl [Hf [Ht Hx]]]].
      exists ((d, []) :: ch).
      split; [simpl; auto|]. split; [constructor; [left; auto|exact Hf]|].
      split.
      * rewrite Ht. simpl. rewrite <- !app_assoc. reflexivity.
      * intros x. rewrite Hx. simpl. rewrite <- app_assoc. reflexivity.
Qed.

Lemma rec_setup (ap : ADIv5_AP) (s : recorder) (a : Z) (al : align) :
  ap_mem_access_setup rec_low_access ap s a al =
  mkRec (trace s ++ [EvLow ADIV5_LOW_WRITE ADIV5_DP_SELECT (ap_select ap ADIV5_AP_CSW);
                     EvLow ADIV5_LOW_WRITE ADIV5_AP_CSW
                       (Z.lor (Z.lor (csw ap) ADIV5_AP_CSW_ADDRINC_SINGLE) (csw_size al));
                     EvLow ADIV5_LOW_WRITE ADIV5_AP_TAR a])
        (responses s).
Proof.
  destruct s as [tr rs]. unfold ap_mem_access_setup, adiv5_ap_write, adiv5_dp_write.
  simpl. rewrite <- !app_assoc. destruct al; reflexivity.
Qed.

(** C1: for [len > 0], [adiv5_mem_read] uses the alignment
    [min (ALIGNOF src) (ALIGNOF len)] and [len >> align] transfers; it
    programs CSW and TAR, issues one priming DRW read whose value is
    dropped, then [count - 1] DRW reads (each possibly preceded by a TAR
    re-arm), and takes the last transfer from RDBUFF; the destination
    receives the lane-extracted values of the DRW reads after the first and
    of RDBUFF. *)
Theorem adiv5_mem_read_sequence (ap : ADIv5_AP) (s : recorder) (src len : Z) :
  0 < len ->
  let al := align_min (ALIGNOF src) (ALIGNOF len) in
  let cnt := Z.shiftr len (align_val al) in
  let r := adiv5_mem_read rec_low_access ap s src len in
  1 <= cnt /\ cnt * 2 ^ align_val al = len /\
  exists r0 chunks rl,
    length chunks = Z.to_nat (cnt - 1) /\
    Forall (fun c => rearm_ok (snd c)) chunks /\
    trace (fst r) =
      trace s ++
      [EvLow ADIV5_LOW_WRITE ADIV5_DP_SELECT (ap_select ap ADIV5_AP_CSW);
       EvLow ADIV5_LOW_WRITE ADIV5_AP_CSW
         (Z.lor (Z.lor (csw ap) ADIV5_AP_CSW_ADDRINC_SINGLE) (csw_size al));
       EvLow ADIV5_LOW_WRITE ADIV5_AP_TAR src;
       EvLow ADIV5_LOW_READ ADIV5_AP_DRW r0] ++
      concat (map chunk_events chunks) ++
      [EvLow ADIV5_LOW_READ ADIV5_DP_RDBUFF rl] /\
    snd r = lanes_of al src (map fst chunks ++ [rl]).
Proof.
  intros Hl al cnt r.
  destruct (mem_read_count src len Hl) as [_ [H1 H2]]. fold al cnt in H1, H2.
  split; [exact H1|]. split; [exact H2|].
  subst r. unfold adiv5_mem_read. fold al cnt.
  destruct (Z.eqb_spec len 0) as [E|E]; [lia|].
  rewrite rec_setup. cbn [rec_low_access fst trace responses].
  set (s1 := mkRec _ _).
  destruct (rec_read_loop al (Z.to_nat (cnt - 1)) s1 [] src src) as [ch [Hn [Hf [Ht Hx]]]].
  destruct (mem_read_loop rec_low_access al (Z.to_nat (cnt - 1)) s1 [] src src)
    as [[s2 dest] src2] eqn:Hloop.
  cbn [fst snd] in Ht, Hx.
  exists (hd 0 (responses s)), ch, (hd 0 (responses s2)).
  split; [exact Hn|]. split; [exact Hf|].
  destruct s2 as [tr2 rs2]. cbn [rec_low_access fst snd trace responses] in *.
  split.
  - rewrite Ht. unfold s1. cbn [trace]. rewrite <- !app_assoc. reflexivity.
  - rewrite Hx. reflexivity.
Qed.

(** C10: [adiv5_mem_read] with [len = 0] returns the state unchanged and
    an empty destination, for any transport; [adiv5_mem_write_sized] with
    [len = 0] still writes CSW (after SELECT) and TAR, and no data. *)
Theorem adiv5_mem_zero_len (ap : ADIv5_AP) (s : recorder) (a : Z) (units : list Z) (al : align) :
  (forall (S : Type) (la : S -> rnw -> reg -> Z -> S * Z) (ap : ADIv5_AP) (s : S) (src : Z),
     adiv5_mem_read la ap s src 0 = (s, [])) /\
  adiv5_mem_write_sized rec_low_access ap s a units 0 al =
  mkRec (trace s ++ [EvLow ADIV5_LOW_WRITE ADIV5_DP_SELECT (ap_select ap ADIV5_AP_CSW);
                     EvLow ADIV5_LOW_WRITE ADIV5_AP_CSW
                       (Z.lor (Z.lor (csw ap) ADIV5_AP_CSW_ADDRINC_SINGLE) (csw_size al));
                     EvLow ADIV5_LOW_WRITE ADIV5_AP_TAR a])
        (responses s).
Proof.
  split.
  - intros. reflexivity.
  - unfold adiv5_mem_write_sized. rewrite Z.shiftr_0_l. apply rec_setup.
Qed.

Lemma adiv5_mem_read_sequence_witness :
  0 < 20 /\
  let al := align_min (ALIGNOF 0x20000FFC) (ALIGNOF 20) in
  let cnt := Z.shiftr 20 (align_val al) in
  let r := adiv5_mem_read rec_low_access (mkAP 0 0 0 0 0) (mkRec [] []) 0x20000FFC 20 in
  1 <= cnt /\ cnt * 2 ^ align_val al = 20 /\
  exists r0 chunks rl,
    length chunks = Z.to_nat (cnt - 1) /\
    Forall (fun c => rearm_ok (snd c)) chunks /\
    trace (fst r) =
      trace (mkRec [] []) ++
      [EvLow ADIV5_LOW_WRITE ADIV5_DP_SELECT (ap_select (mkAP 0 0 0 0 0) ADIV5_AP_CSW);
       EvLow ADIV5_LOW_WRITE ADIV5_AP_CSW
         (Z.lor (Z.lor (csw (mkAP 0 0 0 0 0)) ADIV5_AP_CSW_ADDRINC_SINGLE) (csw_size al));
       EvLow ADIV5_LOW_WRITE ADIV5_AP_TAR 0x20000FFC;
       EvLow ADIV5_LOW_READ ADIV5_AP_DRW r0] ++
      concat (map chunk_events chunks) ++
      [EvLow ADIV5_LOW_READ ADIV5_DP_RDBUFF rl] /\
    snd r = lanes_of al 0x20000FFC (map fst chunks ++ [rl]).
Proof.
  split; [lia|].
  exact (adiv5_mem_read_sequence (mkAP 0 0 0 0 0) (mkRec [] []) 0x20000FFC 20 ltac:(lia)).
Defined.



End TransportFacts.

(** ** CoreSight discovery *)

Module DiscoveryFacts.
Import ADIv5 Discovery TransportFacts.

(** C3: when the CIDR read at a component, with its class nibble masked
    off, differs from [CID_PREAMBLE], [adiv5_component_probe] returns
    [false] in the state reached right after the ID reads and the error
    check: no ROM-table entry is read and nothing is dispatched. *)
Theorem component_probe_preamble_reject {S : Type} (la : S -> rnw -> reg -> Z -> S * Z)
  (de : S -> S * bool) (cm : S -> bool -> S) (ca : S -> Z -> S) (ap : ADIv5_AP)
  (fuel : nat) (s : S) (addr recursion num_entry : Z)
  (s1 s2 s3 : S) (pidr cidr : Z) (err : bool) :
  adiv5_ap_read_pidr la ap s (Z.land addr (not32 3)) = (s1, pidr) ->
  adiv5_ap_read_id la ap s1 (u32 (Z.land addr (not32 3) + CIDR0_OFFSET)) = (s2, cidr) ->
  de s2 = (s3, err) ->
  Z.land cidr (not32 CID_CLASS_MASK) <> CID_PREAMBLE ->
  adiv5_component_probe la de cm ca ap (Datatypes.S fuel) s addr recursion num_entry = Some (s3, false).
Proof.
  intros Hp Hc He Hn. cbn [adiv5_component_probe].
  rewrite Hp, Hc, He.
  destruct err; [reflexivity|].
  apply Z.eqb_neq in Hn. rewrite Hn. reflexivity.
Qed.

Lemma component_probe_preamble_reject_witness :
  exists s3, adiv5_component_probe memap_low_access memap_dp_error (fun s _ => s) (fun s _ => s)
    (mkAP 0 0x24770011 0xE00FF003 0 0) 1 (mkMemAP 0 0 0 s1_mem []) 0xE00FF000 0 0 = Some (s3, false).
Proof.
  eexists. eapply component_probe_preamble_reject; [reflexivity|reflexivity|reflexivity|].
  vm_compute. discriminate.
Defined.


Lemma ALIGNOF_word (a : Z) : Z.land a 3 = 0 -> ALIGNOF a = ALIGN_WORD.
Proof. intros H. unfold ALIGNOF. rewrite H. reflexivity. Qed.

Lemma land3_u32_add (a k : Z) : Z.land a 3 = 0 -> Z.land k 3 = 0 -> Z.land (u32 (a + k)) 3 = 0.
Proof.
  rewrite !land_3. intros Ha Hk. unfold u32.
  rewrite Z.mod_mod_divide by (exists (2 ^ 30); reflexivity).
  rewrite Zplus_mod, Ha, Hk. reflexivity.
Qed.

Lemma memap_read32 (ap : ADIv5_AP) (s : memap) (a : Z) : Z.land a 3 = 0 ->
  exists s', adiv5_mem_read32 memap_low_access ap s a = (s', m_mem s a) /\
             m_mem s' = m_mem s.
Proof.
  intros H. unfold adiv5_mem_read32, adiv5_mem_read. rewrite (ALIGNOF_word a H).
  destruct s as [t z p m w]. simpl.
  eexists. split; reflexivity.
Qed.

Lemma land3_mul4 (i : Z) : Z.land (4 * i) 3 = 0.
Proof. rewrite land_3. rewrite Z.mul_comm. apply Z.mod_mul. lia. Qed.

Lemma land3_mul4' (i : Z) : Z.land (i * 4) 3 = 0.
Proof. rewrite Z.mul_comm. apply land3_mul4. Qed.

Lemma land3_addr (x : Z) : Z.land (Z.land x (not32 3)) 3 = 0.
Proof. rewrite <- Z.land_assoc. change (Z.land (not32 3) 3) with 0. apply Z.land_0_r. Qed.

Lemma memap_read_id_loop (ap : ADIv5_AP) (n : nat) : forall i s addr res,
  Z.land addr 3 = 0 ->
  exists s', read_id_loop memap_low_access ap n i s addr res = (s', mem_id_loop (m_mem s) n i addr res) /\
             m_mem s' = m_mem s.
Proof.
  induction n as [|n IH]; intros i s addr res Ha.
  - exists s. split; reflexivity.
  - cbn [read_id_loop mem_id_loop].
    destruct (memap_read32 ap s (u32 (addr + 4 * i))) as [s1 [E1 M1]].
    { apply land3_u32_add; [exact Ha | apply land3_mul4]. }
    rewrite E1.
    destruct (IH (i + 1) s1 addr (Z.lor res (u32 (Z.shiftl (Z.land (m_mem s (u32 (addr + 4 * i))) 0xff) (i * 8)))) Ha)
      as [s2 [E2 M2]].
    exists s2. rewrite E2, M1. split; [reflexivity | congruence].
Qed.

Lemma memap_read_id (ap : ADIv5_AP) (s : memap) (addr : Z) : Z.land addr 3 = 0 ->
  exists s', adiv5_ap_read_id memap_low_access ap s addr = (s', mem_id_loop (m_mem s) 4 0 addr 0) /\
             m_mem s' = m_mem s.
Proof. apply memap_read_id_loop. Qed.

Lemma memap_armv8_probe (ap : ADIv5_AP) (s : memap) (addr : Z) : Z.land addr 3 = 0 ->
  m_mem (fst (adiv5_armv8_probe memap_low_access ap s addr)) = m_mem s.
Proof.
  intros Ha. unfold adiv5_armv8_probe.
  destruct (memap_read32 ap s (u32 (addr + DEVARCH_OFFSET))) as [s1 [E1 M1]].
  { apply land3_u32_add; [exact Ha | reflexivity]. }
  rewrite E1. destruct (negb _); [exact M1|].
  destruct (memap_read32 ap s1 (u32 (addr + DEVTYPE_OFFSET))) as [s2 [E2 M2]].
  { apply land3_u32_add; [exact Ha | reflexivity]. }
  rewrite E2. simpl. congruence.
Qed.

Section MemapWalk.
Variable cm : memap -> bool -> memap.
Variable ca : memap -> Z -> memap.
Hypothesis Hcm : forall s f, m_mem (cm s f) = m_mem s.
Hypothesis Hca : forall s a, m_mem (ca s a) = m_mem s.
Variable ap : ADIv5_AP.

Local Abbreviation probe := (adiv5_component_probe memap_low_access memap_dp_error cm ca ap).
Local Abbreviation scan := (rom_table_scan memap_low_access memap_dp_error ap).

Lemma memap_probe_unfold (fuel : nat) (s : memap) (addr r e : Z) :
  exists s3, m_mem s3 = m_mem s /\
    (mem_is_rom_table (m_mem s) addr = true ->
       probe (Datatypes.S fuel) s addr r e = scan (probe fuel) 960 0 s3 (Z.land addr (not32 3)) r false) /\
    (mem_is_rom_table (m_mem s) addr = false ->
       exists s' b, probe (Datatypes.S fuel) s addr r e = Some (s', b) /\ m_mem s' = m_mem s).
Proof.
  cbn [adiv5_component_probe]. unfold adiv5_ap_read_pidr.
  pose proof (land3_addr addr) as Ha. set (a := Z.land addr (not32 3)) in *.
  destruct (memap_read_id ap s (u32 (a + PIDR4_OFFSET))) as [s1 [E1 M1]].
  { apply land3_u32_add; [exact Ha | reflexivity]. }
  rewrite E1.
  destruct (memap_read_id ap s1 (u32 (a + PIDR0_OFFSET))) as [s2 [E2 M2]].
  { apply land3_u32_add; [exact Ha | reflexivity]. }
  rewrite E2.
  destruct (memap_read_id ap s2 (u32 (a + CIDR0_OFFSET))) as [s3 [E3 M3]].
  { apply land3_u32_add; [exact Ha | reflexivity]. }
  rewrite E3. unfold memap_dp_error.
  exists s3. split; [congruence|].
  unfold mem_is_rom_table, mem_cidr. fold a. rewrite ?M3, ?M2, ?M1.
  set (cidr := mem_id_loop (m_mem s) 4 0 (u32 (a + CIDR0_OFFSET)) 0).
  destruct (Z.land cidr (not32 CID_CLASS_MASK) =? CID_PREAMBLE); cbn [negb andb].
  - destruct (Z.shiftr (Z.land cidr CID_CLASS_MASK) CID_CLASS_SHIFT =? cidc_romtab).
    + split; [reflexivity | discriminate].
    + split; [discriminate|]. intros _.
      destruct (negb _); [eexists; eexists; split; [reflexivity | congruence]|].
      destruct (pn_lookup _ _) as [arch|]; [|eexists; eexists; split; [reflexivity | congruence]].
      destruct (arch_eqb arch aa_v8).
      * pose proof (memap_armv8_probe ap s3 a Ha) as M4.
        destruct (adiv5_armv8_probe memap_low_access ap s3 a) as [s4 v8]. cbn [fst] in M4.
        eexists; eexists; split; [reflexivity|].
        unfold dispatch. destruct arch; try destruct v8; rewrite ?Hcm, ?Hca; congruence.
      * eexists; eexists; split; [reflexivity|].
        unfold dispatch. destruct arch; rewrite ?Hcm, ?Hca; congruence.
  - split; [discriminate|]. intros _. eexists; eexists; split; [reflexivity | congruence].
Qed.
End MemapWalk.

Lemma memap_scan_step (ap : ADIv5_AP) (probe : memap -> Z -> Z -> Z -> option (memap * bool))
  (k : nat) (i : Z) (s : memap) (addr r : Z) (res : bool) : Z.land addr 3 = 0 ->
  exists s', m_mem s' = m_mem s /\
    rom_table_scan memap_low_access memap_dp_error ap probe (Datatypes.S k) i s addr r res =
    let entry := m_mem s (u32 (addr + i * 4)) in
    if entry =? 0 then Some (s', res)
    else if Z.land entry ADIV5_ROM_ROMENTRY_PRESENT =? 0
    then rom_table_scan memap_low_access memap_dp_error ap probe k (i + 1) s' addr r res
    else match probe s' (u32 (addr + Z.land entry ADIV5_ROM_ROMENTRY_OFFSET)) (r + 1) i with
         | None => None
         | Some (s, b) => rom_table_scan memap_low_access memap_dp_error ap probe k (i + 1) s addr r (orb res b)
         end.
Proof.
  intros Ha. cbn [rom_table_scan].
  destruct (memap_read32 ap s (u32 (addr + i * 4))) as [s1 [E1 M1]].
  { apply land3_u32_add; [exact Ha | apply land3_mul4']. }
  rewrite E1. unfold memap_dp_error. exists s1. split; [exact M1 | reflexivity].
Qed.

Section MemapWalk2.
Variable cm : memap -> bool -> memap.
Variable ca : memap -> Z -> memap.
Hypothesis Hcm : forall s f, m_mem (cm s f) = m_mem s.
Hypothesis Hca : forall s a, m_mem (ca s a) = m_mem s.
Variable ap : ADIv5_AP.

Local Abbreviation probe := (adiv5_component_probe memap_low_access memap_dp_error cm ca ap).
Local Abbreviation scan := (rom_table_scan memap_low_access memap_dp_error ap).

Lemma memap_scan_ok (mem : Z -> Z) (n : nat)
  (IHc : forall s c r e, m_mem s = mem -> rom_depth_le mem n c = true ->
         exists s' b, probe n s c r e = Some (s', b) /\ m_mem s' = mem) :
  forall k i s addr r res, Z.land addr 3 = 0 -> m_mem s = mem ->
  forallb (rom_depth_le mem n) (rom_entries mem k i addr) = true ->
  exists s' b, scan (probe n) k i s addr r res = Some (s', b) /\ m_mem s' = mem.
Proof.
  induction k as [|k IH]; intros i s addr r res Ha Hm Hf.
  - exists s, res. split; [reflexivity | exact Hm].
  - destruct (memap_scan_step ap (probe n) k i s addr r res Ha) as [s1 [M1 E1]].
    rewrite E1. cbn zeta. cbn [rom_entries] in Hf. rewrite Hm.
    destruct (mem (u32 (addr + i * 4)) =? 0); [exists s1, res; split; [reflexivity | congruence]|].
    destruct (Z.land (mem (u32 (addr + i * 4))) ADIV5_ROM_ROMENTRY_PRESENT =? 0).
    + apply IH; [exact Ha | congruence | exact Hf].
    + cbn [forallb] in Hf. apply andb_prop in Hf as [Hc Hf].
      destruct (IHc s1 _ (r + 1) i ltac:(congruence) Hc) as [s2 [b [E2 M2]]].
      rewrite E2. apply IH; [exact Ha | exact M2 | exact Hf].
Qed.

Lemma probe_bounded_aux (n : nat) : forall s addr r e,
  rom_depth_le (m_mem s) n addr = true ->
  exists s' b, probe n s addr r e = Some (s', b) /\ m_mem s' = m_mem s.
Proof.
  induction n as [|n IH]; intros s addr r e H; [discriminate|].
  destruct (memap_probe_unfold cm ca Hcm Hca ap n s addr r e) as [s3 [M3 [Hrom Hnot]]].
  cbn [rom_depth_le] in H.
  destruct (mem_is_rom_table (m_mem s) addr) eqn:R.
  - rewrite (Hrom eq_refl).
    apply (memap_scan_ok (m_mem s) n); [| apply land3_addr | exact M3 | exact H].
    intros s0 c r0 e0 Hs0 Hc. rewrite <- Hs0. apply IH. rewrite Hs0. exact Hc.
  - apply Hnot. reflexivity.
Qed.

Lemma self_rom_diverges_aux (fuel : nat) : forall s r e,
  m_mem s = self_rom -> probe fuel s 0x80000000 r e = None.
Proof.
  induction fuel as [|fuel IH]; intros s r e Hm; [reflexivity|].
  destruct (memap_probe_unfold cm ca Hcm Hca ap fuel s 0x80000000 r e) as [s3 [M3 [Hrom _]]].
  rewrite Hm in Hrom. rewrite (Hrom eq_refl).
  destruct (memap_scan_step ap (adiv5_component_probe memap_low_access memap_dp_error cm ca ap fuel) 959 0 s3 (Z.land 0x80000000 (not32 3)) r false
              eq_refl) as [s4 [M4 E4]].
  rewrite E4. cbn zeta. rewrite M3, Hm.
  change (self_rom (u32 (Z.land 0x80000000 (not32 3) + 0 * 4))) with 1.
  cbn [Z.eqb Pos.eqb].
  change (Z.land 1 ADIV5_ROM_ROMENTRY_PRESENT =? 0) with false.
  change (u32 (Z.land 0x80000000 (not32 3) + Z.land 1 ADIV5_ROM_ROMENTRY_OFFSET)) with 0x80000000.
  rewrite IH by congruence. reflexivity.
Qed.
End MemapWalk2.

Section ScanLog.
Variable aps : Z -> option Z.
Variable disc : Z -> bool.
Variable idcode : Z.

Local Abbreviation scan := (ap_scan (log_new_ap aps) log_mdm log_mdm log_mdm (log_component_probe disc)
              log_cortexm_probe idcode).
Local Abbreviation idc_ok := (Z.land idcode 0xfff =? 0x477).

Lemma scan_probes (k : nat) : forall i s lb va pr,
  exists L, probes (scan k i s lb va pr) = probes s ++ L /\
    ((pr = true \/ idc_ok = false) -> exists rest, L = map EvDiscover rest) /\
    (pr = false -> idc_ok = true ->
       L = [] \/ exists i0 rest,
         L = EvDiscover i0 :: (if negb (disc i0) then [EvForced i0] else []) ++ map EvDiscover rest).
Proof.
  induction k as [|k IH]; intros i s lb va pr.
  - exists []. rewrite app_nil_r. split; [reflexivity|].
    split; [exists []; reflexivity | auto].
  - cbn [ap_scan]. destruct (negb _).
    { exists []. rewrite app_nil_r. split; [reflexivity|]. split; [exists []; reflexivity | auto]. }
    cbn [adiv5_ap_setup log_new_ap].
    destruct (aps i) as [b|].
    + cbn [base]. destruct (b =? lb).
      { exists []. rewrite app_nil_r. split; [reflexivity|]. split; [exists []; reflexivity | auto]. }
      destruct (negb (negb (Z.land b ADIV5_AP_BASE_PRESENT =? 0)) || (b =? 0xffffffff)).
      { edestruct (IH (i + 1)) as [L [E [H1 H2]]].
        exists L. split; [exact E|]. split; assumption. }
      cbn [log_component_probe apsel probes visited].
              destruct pr; cbn [orb negb andb].
      * edestruct (IH (i + 1))
          as [L [E [H1 _]]].
        destruct (H1 (or_introl eq_refl)) as [rest R].
        exists (EvDiscover i :: L). split; [rewrite E; simpl; rewrite <- app_assoc; reflexivity|].
        split; [intros _; exists (i :: rest); rewrite R; reflexivity | discriminate].
      * destruct (disc i) eqn:D; cbn [negb andb].
        -- edestruct (IH (i + 1))
             as [L [E [H1 _]]].
           destruct (H1 (or_introl eq_refl)) as [rest R].
           exists (EvDiscover i :: L). split; [rewrite E; simpl; rewrite <- app_assoc; reflexivity|].
           split; [intros _; exists (i :: rest); rewrite R; reflexivity|].
           intros _ _. right. exists i, rest. rewrite D, R. reflexivity.
        -- destruct idc_ok eqn:I.
           ++ unfold log_cortexm_probe. cbn [visited probes apsel].
              edestruct (IH (i + 1))
                as [L [E [H1 _]]].
              destruct (H1 (or_introl eq_refl)) as [rest R].
              exists (EvDiscover i :: EvForced i :: L).
              split; [rewrite E; simpl; rewrite <- !app_assoc; reflexivity|].
              split; [intros [H|H]; discriminate|].
              intros _ _. right. exists i, rest. rewrite D, R. reflexivity.
           ++ edestruct (IH (i + 1))
                as [L [E [H1 _]]].
              destruct (H1 (or_intror eq_refl)) as [rest R].
              exists (EvDiscover i :: L). split; [rewrite E; simpl; rewrite <- app_assoc; reflexivity|].
              split; [intros _; exists (i :: rest); rewrite R; reflexivity | discriminate].
    + destruct (i =? 0).
      { exists []. rewrite app_nil_r. split; [reflexivity|]. split; [exists []; reflexivity | auto]. }
      edestruct (IH (i + 1)) as [L [E [H1 H2]]].
      exists L. split; [exact E|]. split; assumption.
Qed.
End ScanLog.

Lemma absent_before_mono (aps : Z -> option Z) (n m : nat) :
  (n <= m)%nat -> absent_before aps n <= absent_before aps m.
Proof.
  induction 1 as [|m H IH]; [lia|]. cbn [absent_before].
  destruct (aps (Z.of_nat m)); lia.
Qed.

Section ScanVisited.
Variable aps : Z -> option Z.
Variable disc : Z -> bool.
Variable idcode : Z.

Local Abbreviation scan := (ap_scan (log_new_ap aps) log_mdm log_mdm log_mdm (log_component_probe disc)
              log_cortexm_probe idcode).

Lemma scan_visited (k : nat) : forall (i : nat) s pr, (i + k = 256)%nat ->
  exists L, visited (scan k (Z.of_nat i) s (base_before aps i) (absent_before aps i) pr) = visited s ++ L /\
    forall n : nat, In (Z.of_nat n) L <->
      (i <= n < 256)%nat /\ absent_before aps n < 8 /\
      forall m, (i <= m < n)%nat -> stops_at aps m = false.
Proof.
  induction k as [|k IH]; intros i s pr Hk.
  - exists []. rewrite app_nil_r. split; [reflexivity|]. intros n. simpl. lia.
  - cbn [ap_scan].
    assert (Hi : (Z.of_nat i <? 256) = true) by (apply Z.ltb_lt; lia).
    rewrite Hi. cbn [andb].
    destruct (Z.ltb_spec (absent_before aps i) 8) as [Ha|Ha]; cbn [negb].
    2:{ exists []. rewrite app_nil_r. split; [reflexivity|]. intros n. simpl. split; [tauto|].
        intros [Hn [Hb _]]. pose proof (absent_before_mono aps i n ltac:(lia)). lia. }
    cbn [adiv5_ap_setup log_new_ap visited probes].
    replace (Z.of_nat i + 1) with (Z.of_nat (Datatypes.S i)) by lia.
    assert (Hstep : forall s' b pr', aps (Z.of_nat i) = Some b -> b <> base_before aps i ->
              visited s' = visited s ++ [Z.of_nat i] ->
              exists L, visited (ap_scan (log_new_ap aps) log_mdm log_mdm log_mdm (log_component_probe disc)
                           log_cortexm_probe idcode k (Z.of_nat (Datatypes.S i)) s' b (absent_before aps i) pr')
                        = visited s ++ L /\
                forall n : nat, In (Z.of_nat n) L <->
                  (i <= n < 256)%nat /\ absent_before aps n < 8 /\
                  forall m, (i <= m < n)%nat -> stops_at aps m = false).
    { intros s' b pr' Hb Hne Hv.
      destruct (IH (Datatypes.S i) s' pr' ltac:(lia)) as [L [E HL]].
      cbn [base_before absent_before] in E. rewrite Hb in E. rewrite Z.add_0_r in E.
      exists (Z.of_nat i :: L). rewrite E, Hv, <- app_assoc. split; [reflexivity|].
      intros n. cbn [In]. rewrite HL. split.
      - intros [Hn|[Hn [Hb8 Hm]]].
        + apply Nat2Z.inj in Hn. subst n. split; [lia|]. split; [exact Ha|]. intros; lia.
        + split; [lia|]. split; [exact Hb8|]. intros m Hm'.
          destruct (Nat.eq_dec m i) as [->|Hmi]; [|apply Hm; lia].
          unfold stops_at. rewrite Hb. apply Z.eqb_neq. exact Hne.
      - intros [Hn [Hb8 Hm]]. destruct (Nat.eq_dec n i) as [->|Hni]; [left; reflexivity|].
        right. split; [lia|]. split; [exact Hb8|]. intros m Hm'. apply Hm. lia. }
    destruct (aps (Z.of_nat i)) as [b|] eqn:Hb.
    + cbn [base]. destruct (Z.eqb_spec b (base_before aps i)) as [Heq|Hne].
      * exists [Z.of_nat i]. split; [reflexivity|]. intros n. cbn [In]. split.
        -- intros [Hn|[]]. apply Nat2Z.inj in Hn. subst n. split; [lia|]. split; [exact Ha|]. intros; lia.
        -- intros [Hn [Hb8 Hm]]. left. destruct (Nat.eq_dec n i) as [->|Hni]; [reflexivity|].
           exfalso. specialize (Hm i ltac:(lia)). unfold stops_at in Hm. rewrite Hb in Hm.
           apply Z.eqb_neq in Hm. exact (Hm Heq).
      * unfold log_mdm.
        destruct (negb (negb (Z.land b ADIV5_AP_BASE_PRESENT =? 0)) || (b =? 0xffffffff)).
        { apply Hstep; auto. }
        cbn [log_component_probe visited probes].
        destruct (negb (pr || disc (apsel (mkAP (Z.of_nat i) 1 b 0 0))) && (Z.land idcode 0xfff =? 0x477)).
        -- apply Hstep; auto.
        -- apply Hstep; auto.
    + destruct (Z.eqb_spec (Z.of_nat i) 0) as [H0|H0].
      * exists [Z.of_nat i]. split; [reflexivity|]. intros n. cbn [In]. split.
        -- intros [Hn|[]]. apply Nat2Z.inj in Hn. subst n. split; [lia|]. split; [exact Ha|]. intros; lia.
        -- intros [Hn [Hb8 Hm]]. left. destruct (Nat.eq_dec n i) as [->|Hni]; [reflexivity|].
           exfalso. specialize (Hm i ltac:(lia)). unfold stops_at in Hm. rewrite Hb in Hm.
           apply Nat.eqb_neq in Hm. lia.
      * destruct (IH (Datatypes.S i) (mkScan (visited s ++ [Z.of_nat i]) (probes s)) pr ltac:(lia))
          as [L [E HL]].
        cbn [base_before absent_before] in E. rewrite Hb in E.
        exists (Z.of_nat i :: L). rewrite E. cbn [visited]. rewrite <- app_assoc. split; [reflexivity|].
        intros n. cbn [In]. rewrite HL. split.
        -- intros [Hn|[Hn [Hb8 Hm]]].
           ++ apply Nat2Z.inj in Hn. subst n. split; [lia|]. split; [exact Ha|]. intros; lia.
           ++ split; [lia|]. split; [exact Hb8|]. intros m Hm'.
              destruct (Nat.eq_dec m i) as [->|Hmi]; [|apply Hm; lia].
              unfold stops_at. rewrite Hb. apply Nat.eqb_neq. lia.
        -- intros [Hn [Hb8 Hm]]. destruct (Nat.eq_dec n i) as [->|Hni]; [left; reflexivity|].
           right. split; [lia|]. split; [exact Hb8|]. intros m Hm'. apply Hm. lia.
Qed.
End ScanVisited.

(** C4 (as corrected): the component walk terminates, with [n] levels of
    recursion, on every ROM-table structure whose tables nest at most [n]
    deep ([rom_depth_le]); nothing bounds the recursion otherwise (see
    [component_probe_self_rom_cycle]). *)
Theorem component_probe_depth_bounded (cm : memap -> bool -> memap) (ca : memap -> Z -> memap)
  (ap : ADIv5_AP) (n : nat) (s : memap) (addr recursion num_entry : Z) :
  (forall s f, m_mem (cm s f) = m_mem s) -> (forall s a, m_mem (ca s a) = m_mem s) ->
  rom_depth_le (m_mem s) n addr = true ->
  exists s' b,
    adiv5_component_probe memap_low_access memap_dp_error cm ca ap n s addr recursion num_entry
      = Some (s', b) /\ m_mem s' = m_mem s.
Proof.
  intros Hcm Hca H. exact (probe_bounded_aux cm ca Hcm Hca ap n s addr recursion num_entry H).
Qed.

Lemma component_probe_depth_bounded_witness :
  exists s' b,
    adiv5_component_probe memap_low_access memap_dp_error (fun s _ => s) (fun s _ => s)
      (mkAP 0 0x24770011 0x80000003 0 0) 2 (mkMemAP 0 0 0 two_level_rom []) 0x80000000 0 0
      = Some (s', b) /\ m_mem s' = m_mem (mkMemAP 0 0 0 two_level_rom []).
Proof.
  apply (component_probe_depth_bounded (fun s _ => s) (fun s _ => s) (mkAP 0 0x24770011 0x80000003 0 0)
           2 (mkMemAP 0 0 0 two_level_rom []) 0x80000000 0 0).
  - intros s f. reflexivity.
  - intros s a. reflexivity.
  - vm_compute. reflexivity.
Defined.

(** A ROM table whose first entry points back at itself: the walk
    returns for no recursion budget. *)
Lemma component_probe_self_rom_cycle :
  ~ exists (fuel : nat) (r : memap * bool),
      adiv5_component_probe memap_low_access memap_dp_error (fun s _ => s) (fun s _ => s)
        (mkAP 0 0x24770011 0x80000003 0 0) fuel (mkMemAP 0 0 0 self_rom []) 0x80000000 0 0 = Some r.
Proof.
  intros [fuel [r H]].
  rewrite (self_rom_diverges_aux (fun s _ => s) (fun s _ => s) (fun _ _ => eq_refl) (fun _ _ => eq_refl))
    in H; [discriminate|reflexivity].
Qed.

(** C5 (as corrected): over a whole scan, the forced [cortexm_probe] is
    called at most once, right after the first component walk, and only
    when that walk found nothing and [idcode & 0xfff = 0x477]; later
    MEM-APs never get it, since [probed] is shared by all APs. *)
Theorem forced_probe_first_ap (aps : Z -> option Z) (disc : Z -> bool) (idcode : Z) :
  probes (log_scan aps disc idcode) = [] \/
  exists i0 rest,
    probes (log_scan aps disc idcode) =
      EvDiscover i0 :: (if negb (disc i0) && (Z.land idcode 0xfff =? 0x477) then [EvForced i0] else [])
      ++ map EvDiscover rest.
Proof.
  unfold log_scan, adiv5_dp_init_scan.
  destruct (scan_probes aps disc idcode 256 0 (mkScan [] []) 0 0 false) as [L [HL [Hrest Hfirst]]].
  rewrite HL. cbn [probes app].
  destruct (Z.land idcode 0xfff =? 0x477) eqn:I.
  - destruct (Hfirst eq_refl eq_refl) as [->|[i0 [rest ->]]]; [left; reflexivity|].
    right. exists i0, rest. rewrite andb_true_r. reflexivity.
  - destruct (Hrest (or_intror eq_refl)) as [rest ->].
    destruct rest as [|i0 rest]; [left; reflexivity|].
    right. exists i0, rest. rewrite andb_false_r. reflexivity.
Qed.

(** Two MEM-APs whose walks both find nothing, with IDCODE 0x0BA01477:
    only the first gets the forced probe. *)
Lemma forced_probe_second_ap_skipped :
  probes (log_scan two_mem_aps (fun _ => false) 0x0BA01477) = [EvDiscover 0; EvForced 0; EvDiscover 1].
Proof. vm_compute. reflexivity. Qed.

(** The scan compares each present AP's BASE with [last_base], which
    starts at 0: [base_before] is [prev_base] with 0 for none. *)
Lemma ap_scan_visited_raw (aps : Z -> option Z) (disc : Z -> bool) (idcode : Z) (n : nat) :
  In (Z.of_nat n) (visited (log_scan aps disc idcode)) <->
  (n < 256)%nat /\ absent_before aps n < 8 /\ forall m, (m < n)%nat -> stops_at aps m = false.
Proof.
  unfold log_scan, adiv5_dp_init_scan.
  destruct (scan_visited aps disc idcode 256 0 (mkScan [] []) false eq_refl) as [L [HL HI]].
  change (Z.of_nat 0) with 0 in HL. cbn [base_before absent_before] in HL.
  rewrite HL. cbn [visited app]. rewrite HI.
  split; intros [H1 [H2 H3]]; repeat split; auto; try lia.
  - intros m Hm. apply H3. lia.
  - intros m Hm. apply H3. lia.
Qed.

Lemma base_before_prev (aps : Z -> option Z) (n : nat) :
  base_before aps n = match prev_base aps n with Some b => b | None => 0 end.
Proof.
  induction n as [|n IH]; [reflexivity|]. cbn [base_before prev_base].
  destruct (aps (Z.of_nat n)); [reflexivity|exact IH].
Qed.

Lemma stops_at_spec (aps : Z -> option Z) (m : nat) :
  (forall b, aps (Z.of_nat m) = Some b -> prev_base aps m = None -> b <> 0) ->
  stops_at aps m = spec_stops_at aps m.
Proof.
  intros H0. unfold stops_at, spec_stops_at. rewrite base_before_prev.
  destruct (aps (Z.of_nat m)) as [b|] eqn:A; [|reflexivity].
  destruct (prev_base aps m) as [b'|] eqn:P; [reflexivity|].
  apply Z.eqb_neq. exact (H0 b eq_refl eq_refl).
Qed.

(** C6 (as corrected): provided the first present AP does not read BASE 0,
    apsel [n] is examined exactly when [n < 256], fewer than 8 APs before
    it were absent (in total, not consecutively), and the scan did not
    stop at an earlier apsel: at an absent apsel 0, or at a present AP
    whose BASE equals the BASE of the last present AP before it. *)
Theorem ap_scan_visited (aps : Z -> option Z) (disc : Z -> bool) (idcode : Z) (n : nat) :
  (forall m b, aps (Z.of_nat m) = Some b -> prev_base aps m = None -> b <> 0) ->
  In (Z.of_nat n) (visited (log_scan aps disc idcode)) <->
  (n < 256)%nat /\ absent_before aps n < 8 /\ forall m, (m < n)%nat -> spec_stops_at aps m = false.
Proof.
  intros H0. rewrite ap_scan_visited_raw.
  split; intros [H1 [H2 H3]]; (split; [exact H1|]); (split; [exact H2|]); intros m Hm.
  - rewrite <- stops_at_spec; [exact (H3 m Hm)|apply H0].
  - rewrite stops_at_spec; [exact (H3 m Hm)|apply H0].
Qed.

(** Two MEM-APs with distinct nonzero BASEs: apsel 1 is examined. *)
Lemma ap_scan_visited_witness :
  (forall m b, two_mem_aps (Z.of_nat m) = Some b -> prev_base two_mem_aps m = None -> b <> 0) /\
  (In (Z.of_nat 1) (visited (log_scan two_mem_aps (fun _ => true) 0)) <->
   (1 < 256)%nat /\ absent_before two_mem_aps 1 < 8 /\
   forall m, (m < 1)%nat -> spec_stops_at two_mem_aps m = false).
Proof.
  assert (H0 : forall m b, two_mem_aps (Z.of_nat m) = Some b -> prev_base two_mem_aps m = None -> b <> 0).
  { intros m b H _. unfold two_mem_aps in H.
    destruct (Z.of_nat m =? 0); [injection H as <-; discriminate|].
    destruct (Z.of_nat m =? 1); [injection H as <-; discriminate|discriminate]. }
  split; [exact H0|]. exact (ap_scan_visited two_mem_aps (fun _ => true) 0 1 H0).
Defined.

(** MEM-APs at the even apsels only: the scan stops after apsel 15, at
    the eighth absent AP, although no two absent APs are consecutive, and
    the AP at apsel 16 is never examined. *)
Lemma ap_scan_alternating_stops :
  visited (log_scan alt_aps (fun _ => true) 0x0BA01477) = map Z.of_nat (seq 0 16) /\
  alt_aps 16 = Some 0x100003.
Proof. split; vm_compute; reflexivity. Qed.

End DiscoveryFacts.

(** ** The EFM32 driver *)

Module EFM32Facts.
Import ADIv5 EFM32.

Lemma efm_poll_trace msc : forall pfuel s s' ab,
  efm32_poll_busy efm_read32 efm_check_error pfuel s msc = Some (s', ab) ->
  exists e, etrace s' = etrace s ++ e /\ (if ab then poll_abort msc e else poll_ok msc e).
Proof.
  induction pfuel as [|pfuel IH]; intros s s' ab H; [discriminate|].
  simpl in H.
  destruct (Z.land (hd 0 (reads s)) EFM32_MSC_STATUS_BUSY =? 0) eqn:Eb.
  - injection H as <- <-. simpl. eexists; split; [reflexivity|].
    exists [], (hd 0 (reads s)). split; [constructor|]. split; [|reflexivity].
    unfold busy. apply Z.eqb_eq in Eb. congruence.
  - destruct (hd false (errs s)) eqn:Ee.
    + injection H as <- <-. simpl. rewrite <- app_assoc. eexists; split; [reflexivity|].
      exists [], (hd 0 (reads s)). split; [constructor|]. split; [|reflexivity].
      unfold busy. apply Z.eqb_neq in Eb. exact Eb.
    + apply IH in H. destruct H as [e [He Hp]]. simpl in He.
      rewrite He, <- !app_assoc. eexists; split; [reflexivity|].
      assert (Hb : busy (hd 0 (reads s))) by (unfold busy; apply Z.eqb_neq in Eb; exact Eb).
      destruct ab; destruct Hp as [vs [v [Hf [Hv ->]]]];
        exists (hd 0 (reads s) :: vs), v; (split; [constructor; assumption|]); split; auto;
        unfold busy_polls; simpl; rewrite Ee; reflexivity.
Qed.

Lemma ceil_zero bs : 0 < bs -> (0 + bs - 1) / bs = 0.
Proof. intros. apply Z.div_small. lia. Qed.

Lemma ceil_small bs len : 0 < bs -> 0 < len <= bs -> (len + bs - 1) / bs = 1.
Proof.
  intros. replace (len + bs - 1) with ((len - 1) + 1 * bs) by lia.
  rewrite Z.div_add by lia. rewrite Z.div_small by lia. reflexivity.
Qed.

Lemma ceil_step bs len : 0 < bs -> bs < len ->
  (len + bs - 1) / bs = 1 + ((len - bs) + bs - 1) / bs.
Proof.
  intros. replace (len + bs - 1) with ((len - bs + bs - 1) + 1 * bs) by lia.
  rewrite Z.div_add by lia. lia.
Qed.

Lemma ceil_nonneg bs len : 0 < bs -> 0 <= len -> 0 <= (len + bs - 1) / bs.
Proof. intros. apply Z.div_pos; lia. Qed.

Lemma u32_step addr bs k : 0 <= addr < 2 ^ 32 ->
  u32 (u32 (addr + bs) + Z.of_nat k * bs) = u32 (addr + Z.of_nat (S k) * bs).
Proof.
  intros. unfold u32. rewrite Zplus_mod_idemp_l. f_equal. lia.
Qed.

Lemma u32_range' x : 0 <= u32 x < 2 ^ 32.
Proof. unfold u32. apply Z.mod_pos_bound. lia. Qed.

Lemma efm_erase_loop_trace msc bs pfuel (Hbs : 0 < bs) : forall fuel s addr len s' r,
  0 <= addr < 2 ^ 32 -> 0 <= len ->
  efm32_erase_loop efm_read32 efm_write32 efm_check_error fuel pfuel s msc bs addr len = Some (s', r) ->
  exists polls, Forall (poll_ok msc) polls /\
    ((r = 0 /\ Z.of_nat (length polls) = (len + bs - 1) / bs /\
      etrace s' = etrace s ++ erase_pages msc bs addr polls) \/
     (r = -1 /\ Z.of_nat (length polls) < (len + bs - 1) / bs /\ exists ab, poll_abort msc ab /\
      etrace s' = etrace s ++ erase_pages msc bs addr polls
                  ++ erase_page_events msc (u32 (addr + Z.of_nat (length polls) * bs)) ++ ab)).
Proof.
  induction fuel as [|fuel IH]; intros s addr len s' r Ha Hl H; [discriminate|].
  simpl in H. destruct (len =? 0) eqn:El.
  - injection H as <- <-. apply Z.eqb_eq in El. subst len.
    exists []. split; [constructor|]. left. rewrite ceil_zero by lia.
    rewrite app_nil_r. auto.
  - apply Z.eqb_neq in El.
    destruct (efm32_poll_busy efm_read32 efm_check_error pfuel _ msc) as [[s1 ab]|] eqn:Ep;
      [|discriminate].
    apply efm_poll_trace in Ep. destruct Ep as [e [He Hp]]. simpl in He.
    destruct ab.
    + injection H as <- <-. exists []. split; [constructor|]. right.
      split; [reflexivity|]. split.
      { simpl. assert (1 <= (len + bs - 1) / bs) by (apply Z.div_le_lower_bound; lia). lia. }
      exists e. split; [exact Hp|]. rewrite He.
      assert (E0 : u32 (addr + Z.of_nat (length (@nil (list mem_event))) * bs) = addr)
        by (unfold u32; simpl; rewrite Z.add_0_r, Z.mod_small; lia).
      rewrite E0. simpl.
      unfold erase_page_events. rewrite <- !app_assoc. reflexivity.
    + apply IH in H; [|apply u32_range'|destruct (len >? bs) eqn:Eg; lia].
      destruct H as [polls [Hf Hr]].
      exists (e :: polls). split; [constructor; assumption|].
      destruct Hr as [[Hr [Hn Ht]]|[Hr [Hn [ab [Hab Ht]]]]].
      * left. split; [exact Hr|]. split.
        { simpl length. destruct (len >? bs) eqn:Eg.
          - apply Z.gtb_lt in Eg. rewrite ceil_step by lia. lia.
          - rewrite Z.gtb_ltb in Eg; apply Z.ltb_ge in Eg. rewrite ceil_small by lia. rewrite ceil_zero in Hn by lia. lia. }
        rewrite Ht, He. simpl. unfold erase_page_events. rewrite <- !app_assoc. reflexivity.
      * right. split; [exact Hr|]. split.
        { simpl length. destruct (len >? bs) eqn:Eg.
          - apply Z.gtb_lt in Eg. rewrite ceil_step by lia. lia.
          - rewrite Z.gtb_ltb in Eg; apply Z.ltb_ge in Eg. rewrite ceil_zero in Hn by lia. lia. }
        exists ab. split; [exact Hab|].
        rewrite Ht, He. simpl length. rewrite u32_step by exact Ha. simpl.
        unfold erase_page_events. rewrite <- !app_assoc. reflexivity.
Qed.

(** C7: on a target whose [driver[2]] names a known device,
    [efm32_flash_erase] writes LOCK <- 0x1B71 and WRITECTRL <- 1, then for
    each page writes ADDRB <- addr, WRITECMD <- LADDRIM, WRITECMD <-
    ERASEPAGE and polls STATUS.BUSY until clear, advancing [addr] by
    [blocksize]; it returns 0 after [ceil (len / blocksize)] pages, or -1
    when an error check aborts a poll. *)
Theorem efm32_flash_erase_sequence (fuel pfuel : nat) (s s' : efm_rec)
  (driver2 blocksize addr len r : Z) (device : efm32_device_t) :
  efm32_get_device (driver2 - 32) = Some device -> 0 < blocksize ->
  0 <= addr < 2 ^ 32 -> 0 < len ->
  efm32_flash_erase efm_read32 efm_write32 efm_check_error fuel pfuel s driver2 blocksize addr len
    = Some (s', r) ->
  efm32_erase_spec (msc_addr device) blocksize addr len s s' r.
Proof.
  intros Hd Hbs Ha Hl H. unfold efm32_flash_erase in H. rewrite Hd in H.
  apply efm_erase_loop_trace in H; [|lia|exact Ha|lia].
  destruct H as [polls [Hf Hr]]. exists polls. split; [exact Hf|].
  destruct Hr as [[Hr [Hn Ht]]|[Hr [Hn [ab [Hab Ht]]]]].
  - left. split; [exact Hr|]. split; [exact Hn|].
    rewrite Ht. simpl. rewrite <- !app_assoc. reflexivity.
  - right. split; [exact Hr|]. split; [exact Hn|]. exists ab. split; [exact Hab|].
    rewrite Ht. simpl. rewrite <- !app_assoc. reflexivity.
Qed.

Lemma efm32_flash_erase_sequence_witness :
  exists s' r, efm32_flash_erase efm_read32 efm_write32 efm_check_error 5 5
      (mkEfm [] [1; 0; 0] [false]) 32 512 0 1000 = Some (s', r) /\
    efm32_erase_spec 0x400c0000 512 0 1000 (mkEfm [] [1; 0; 0] [false]) s' r.
Proof.
  do 2 eexists. split; [vm_compute; reflexivity|].
  apply (efm32_flash_erase_sequence 5 5 _ _ 32 512 0 1000 _
           (mkDev 71 1 "EFM32G"%string 512 0x400c0000 false 512 0 "Gecko"%string)).
  - vm_compute. reflexivity.
  - lia.
  - lia.
  - lia.
  - vm_compute. reflexivity.
Defined.
Lemma efm_read_part_number_trace v s : v = 2 \/ v = 3 \/ v = 4 ->
  fst (efm32_read_part_number efm_read32 s v)
  = mkEfm (etrace s ++ [MR (di_part_addr v) (hd 0 (reads s))]) (tl (reads s)) (errs s).
Proof. intros [H|[H|H]]; subst v; reflexivity. Qed.

Lemma efm_read_flash_size_trace v s : v = 2 \/ v = 3 \/ v = 4 ->
  fst (efm32_read_flash_size efm_read32 s v)
  = mkEfm (etrace s ++ [MR (di_msize_addr v) (hd 0 (reads s))]) (tl (reads s)) (errs s).
Proof. intros [H|[H|H]]; subst v; reflexivity. Qed.

Lemma efm_read_ram_size_trace v s : v = 2 \/ v = 3 \/ v = 4 ->
  fst (efm32_read_ram_size efm_read32 s v)
  = mkEfm (etrace s ++ [MR (di_msize_addr v) (hd 0 (reads s))]) (tl (reads s)) (errs s).
Proof. intros [H|[H|H]]; subst v; reflexivity. Qed.

Ltac probe_tail v :=
  cbn [efm32_probe Z.eqb Pos.eqb orb efm32_lookup_device_index efm32_read_part_family efm_read32];
  let fi := fresh "fi" in
  set (fi := family_search _ _ _); clearbody fi;
  destruct (fi =? _);
  [ split; [eexists; eexists; split; [reflexivity| constructor] | discriminate] |];
  destruct (efm32_get_device fi);
  [| split; [eexists; eexists; split; [reflexivity| constructor] | discriminate] ];
  match goal with |- context [efm32_read_part_number efm_read32 ?s0 _] =>
    pose proof (efm_read_part_number_trace v s0 ltac:(lia)) as E1;
    destruct (efm32_read_part_number efm_read32 s0 _) as [s1 pn]; simpl in E1; subst s1 end;
  match goal with |- context [efm32_read_flash_size efm_read32 ?s0 _] =>
    pose proof (efm_read_flash_size_trace v s0 ltac:(lia)) as E2;
    destruct (efm32_read_flash_size efm_read32 s0 _) as [s2 fk]; simpl in E2; subst s2 end;
  match goal with |- context [efm32_read_ram_size efm_read32 ?s0 _] =>
    pose proof (efm_read_ram_size_trace v s0 ltac:(lia)) as E3;
    destruct (efm32_read_ram_size efm_read32 s0 _) as [s3 rk]; simpl in E3; subst s3 end;
  split;
  [ eexists; eexists; split;
    [ cbn [etrace]; rewrite <- !app_assoc; reflexivity
    | repeat (apply Forall_cons; [eexists; (left; reflexivity) || (right; reflexivity)|]); apply Forall_nil ]
  | intros tt Ht; injection Ht as <-; reflexivity ].

(** C8: [efm32_probe] rejects (returns the state unchanged and no
    target) every IDCODE other than 0x2BA01477, 0x0BC11477 and 0x6BA02477;
    these select DI schema 3, 2 and 4: the first access is a read of that
    schema's PART word, every later one reads its PART or MSIZE word, and a
    probed target records that schema. *)
Theorem efm32_probe_schema :
  (forall (St : Type) (rd : St -> Z -> St * Z) (s : St) (ap_idcode : Z),
     ap_idcode <> 0x2BA01477 -> ap_idcode <> 0x0BC11477 -> ap_idcode <> 0x6BA02477 ->
     efm32_probe rd s ap_idcode = (s, None)) /\
  (forall (s : efm_rec) (ap_idcode v : Z),
     In (ap_idcode, v) [(0x2BA01477, 3); (0x0BC11477, 2); (0x6BA02477, 4)] ->
     let (s', t) := efm32_probe efm_read32 s ap_idcode in
     (exists x rest, etrace s' = etrace s ++ MR (di_part_addr v) x :: rest /\
                     Forall (di_read v) rest) /\
     (forall tt, t = Some tt -> t_di_version tt = v)).
Proof.
  split.
  - intros St rd s ap_idcode H1 H2 H3. unfold efm32_probe.
    apply Z.eqb_neq in H1, H2, H3. rewrite H1, H2, H3. reflexivity.
  - intros s ap_idcode v H. simpl in H.
    destruct H as [H|[H|[H|[]]]]; injection H as <- <-.
    + probe_tail 3.
    + probe_tail 2.
    + probe_tail 4.
Qed.

Lemma efm32_probe_schema_witness :
  efm32_probe efm_read32 (mkEfm [] [] []) 0 = (mkEfm [] [] [], None) /\
  (let (s', t) := efm32_probe efm_read32 (mkEfm [] [0x00470000] []) 0x2BA01477 in
   (exists x rest, etrace s' = etrace (mkEfm [] [0x00470000] []) ++ MR (di_part_addr 3) x :: rest /\
                   Forall (di_read 3) rest) /\
   (forall tt, t = Some tt -> t_di_version tt = 3)).
Proof.
  split.
  - apply (proj1 efm32_probe_schema); discriminate.
  - apply (proj2 efm32_probe_schema). simpl. left. reflexivity.
Defined.

Lemma rec_ap_read ap s r :
  adiv5_ap_read rec_low_access rec_dp_read ap s r
  = (mkRec (trace s ++ ap_read_events ap r (hd 0 (responses s))) (tl (responses s)),
     hd 0 (responses s)).
Proof. unfold adiv5_ap_read, adiv5_dp_write, rec_dp_read. simpl. rewrite <- app_assoc. reflexivity. Qed.

Lemma rec_ap_write ap s r v :
  adiv5_ap_write rec_low_access ap s r v = mkRec (trace s ++ ap_write_events ap r v) (responses s).
Proof. unfold adiv5_ap_write, adiv5_dp_write. simpl. rewrite <- app_assoc. reflexivity. Qed.

Lemma rec_aap_poll ap : forall fuel s s',
  aap_poll rec_low_access rec_dp_read fuel ap s = Some s' ->
  exists vs v, Forall aap_busy vs /\ ~ aap_busy v /\
    trace s' = trace s ++ concat (map (ap_read_events ap AAP_STATUS) vs) ++ ap_read_events ap AAP_STATUS v.
Proof.
  induction fuel as [|fuel IH]; intros s s' H; [discriminate|].
  cbn [aap_poll] in H. rewrite rec_ap_read in H.
  destruct (Z.land (hd 0 (responses s)) AAP_STATUS_ERASEBUSY =? 0) eqn:Eb.
  - injection H as <-. exists [], (hd 0 (responses s)). split; [constructor|].
    split; [unfold aap_busy; apply Z.eqb_eq in Eb; congruence|]. reflexivity.
  - apply IH in H. destruct H as [vs [v [Hf [Hv Ht]]]].
    exists (hd 0 (responses s) :: vs), v. split.
    + constructor; [unfold aap_busy; apply Z.eqb_neq in Eb; exact Eb|exact Hf].
    + split; [exact Hv|]. rewrite Ht. simpl. rewrite <- !app_assoc. reflexivity.
Qed.

(** C9: [efm32_aap_probe] creates a target exactly when
    [idr & 0x0FFFFF0F = 0x06E60001]; [efm32_aap_cmd_device_erase] reads
    STATUS and fails without any write if ERASEBUSY is set, and otherwise
    writes CMDKEY <- 0xCFACC118 and CMD <- 1, polls STATUS until ERASEBUSY
    reads clear, reads STATUS once more and succeeds. *)
Theorem efm32_aap_device_erase :
  (forall ap, efm32_aap_probe ap <> None <-> Z.land (idr ap) 0x0FFFFF0F = 0x06E60001) /\
  (forall fuel ap s s' b,
     efm32_aap_cmd_device_erase rec_low_access rec_dp_read fuel ap s = Some (s', b) ->
     aap_erase_spec ap s s' b).
Proof.
  split.
  - intros ap. unfold efm32_aap_probe, EFM32_APP_IDR_MASK, EFM32_AAP_IDR.
    destruct (Z.land (idr ap) 0x0FFFFF0F =? 0x06E60001) eqn:E.
    + apply Z.eqb_eq in E. split; [intros _; exact E|discriminate].
    + apply Z.eqb_neq in E. split; [intros H; exfalso; apply H; reflexivity|intros H; contradiction].
  - intros fuel ap s s' b H. unfold efm32_aap_cmd_device_erase in H.
    rewrite rec_ap_read in H. exists (hd 0 (responses s)).
    destruct (Z.land (hd 0 (responses s)) AAP_STATUS_ERASEBUSY =? 0) eqn:Eb; cbn [negb] in H.
    + right. split; [unfold aap_busy; apply Z.eqb_eq in Eb; congruence|].
      rewrite !rec_ap_write in H.
      destruct (aap_poll _ _ fuel ap _) as [s1|] eqn:Ep; [|discriminate].
      apply rec_aap_poll in Ep. destruct Ep as [vs [v [Hf [Hv Ht]]]].
      rewrite rec_ap_read in H. injection H as <- <-. split; [reflexivity|].
      exists vs, v, (hd 0 (responses s1)). split; [exact Hf|]. split; [exact Hv|].
      simpl. rewrite Ht. simpl. rewrite <- !app_assoc. reflexivity.
    + left. injection H as <- <-. split; [unfold aap_busy; apply Z.eqb_neq in Eb; exact Eb|].
      split; reflexivity.
Qed.

Lemma efm32_aap_device_erase_witness :
  exists s' b,
    efm32_aap_cmd_device_erase rec_low_access rec_dp_read 4 (mkAP 1 0x16E60001 0 0 0)
      (mkRec [] [0; 1; 1; 0; 0]) = Some (s', b) /\
    aap_erase_spec (mkAP 1 0x16E60001 0 0 0) (mkRec [] [0; 1; 1; 0; 0]) s' b.
Proof.
  do 2 eexists. split; [vm_compute; reflexivity|].
  apply (proj2 efm32_aap_device_erase 4%nat). vm_compute. reflexivity.
Defined.

End EFM32Facts.


Module EFM32Extra.
Import ADIv5 EFM32 EFM32Facts EFM32Commands.

(** Joining two 32-bit halves with [<< 32] and [|] is [h * 2^32 + l]. *)
Lemma lor_shift32 (h l : Z) : 0 <= h < 2 ^ 32 -> 0 <= l < 2 ^ 32 ->
  Z.lor (u64 (Z.shiftl h 32)) l = h * 2 ^ 32 + l.
Proof.
  intros Hh Hl. unfold u64. rewrite Z.shiftl_mul_pow2 by lia.
  rewrite Z.mod_small by lia.
  rewrite <- Z.lxor_lor.
  - rewrite Z.add_nocarry_lxor; [reflexivity|].
    apply Z.bits_inj'. intros n Hn. rewrite Z.land_spec, Z.bits_0.
    rewrite <- Z.shiftl_mul_pow2 by lia.
    destruct (Z.ltb_spec n 32).
    + rewrite Z.shiftl_spec_low by lia. reflexivity.
    + rewrite (Z.bits_above_log2 l n); [apply andb_false_r|lia|].
      destruct (Z.eq_dec l 0); [subst; simpl; lia|].
      assert (Z.log2 l < 32) by (apply Z.log2_lt_pow2; lia). lia.
  - apply Z.bits_inj'. intros n Hn. rewrite Z.land_spec, Z.bits_0.
    rewrite <- Z.shiftl_mul_pow2 by lia.
    destruct (Z.ltb_spec n 32).
    + rewrite Z.shiftl_spec_low by lia. reflexivity.
    + rewrite (Z.bits_above_log2 l n); [apply andb_false_r|lia|].
      destruct (Z.eq_dec l 0); [subst; simpl; lia|].
      assert (Z.log2 l < 32) by (apply Z.log2_lt_pow2; lia). lia.
Qed.

(** [efm32_read_unique]: for DI versions 1 to 4 it reads the high word, then the low word, of the unique number and returns [h * 2^32 + l]; for any other version it reads nothing and returns 0. *)
Theorem efm32_read_unique_value (v : Z) (s : efm_rec) (h l : Z) (rest : list Z) :
  0 <= h < 2 ^ 32 -> 0 <= l < 2 ^ 32 -> reads s = h :: l :: rest ->
  efm32_read_unique efm_read32 s v =
  if (1 <=? v) && (v <=? 4) then
    (mkEfm (etrace s ++ [MR (snd (di_unique_addrs v)) h; MR (fst (di_unique_addrs v)) l]) rest (errs s),
     h * 2 ^ 32 + l)
  else (s, 0).
Proof.
  intros Hh Hl Hr. unfold efm32_read_unique, di_unique_addrs.
  destruct (Z.eqb_spec v 1); [subst; unfold efm_read32; rewrite Hr; cbn -[u64 Z.lor Z.shiftl]; rewrite lor_shift32 by lia;
    rewrite <- app_assoc; reflexivity|].
  destruct (Z.eqb_spec v 2); [subst; unfold efm_read32; rewrite Hr; cbn -[u64 Z.lor Z.shiftl]; rewrite lor_shift32 by lia;
    rewrite <- app_assoc; reflexivity|].
  destruct (Z.eqb_spec v 3); [subst; unfold efm_read32; rewrite Hr; cbn -[u64 Z.lor Z.shiftl]; rewrite lor_shift32 by lia;
    rewrite <- app_assoc; reflexivity|].
  destruct (Z.eqb_spec v 4); [subst; unfold efm_read32; rewrite Hr; cbn -[u64 Z.lor Z.shiftl]; rewrite lor_shift32 by lia;
    rewrite <- app_assoc; reflexivity|].
  replace ((1 <=? v) && (v <=? 4)) with false; [reflexivity|].
  symmetry. apply andb_false_iff. destruct (Z.leb_spec 1 v); [|now left].
  right. apply Z.leb_gt. lia.
Qed.

(** The unique number of a DI version 1 part built from two concrete words. *)
Lemma efm32_read_unique_value_witness :
  efm32_read_unique efm_read32 (mkEfm [] [0x12345678; 0x9ABCDEF0] []) 3 =
  (mkEfm [MR (EFM32_DI_V3 + 4 * 17) 0x12345678; MR (EFM32_DI_V3 + 4 * 16) 0x9ABCDEF0] [] [],
   0x123456789ABCDEF0).
Proof.
  rewrite (efm32_read_unique_value 3 _ 0x12345678 0x9ABCDEF0 []); [reflexivity|lia|lia|reflexivity].
Defined.

(** Masking with [0xFF] already fits a [uint8_t]. *)
Lemma u8_land_ff (x : Z) : u8 (Z.land x 0xFF) = Z.land x 0xFF.
Proof.
  unfold u8. change 0xFF with (Z.ones 8). rewrite Z.land_ones by lia.
  apply Z.mod_mod. lia.
Qed.

(** A byte mask lies in [0, 256). *)
Lemma land_ff_range (x : Z) : 0 <= Z.land x 0xFF < 256.
Proof. change 0xFF with (Z.ones 8). rewrite Z.land_ones by lia. apply Z.mod_pos_bound. lia. Qed.

(** The recording target returns the next scripted word and logs the read. *)
Lemma efm_read32_cons (s : efm_rec) (a v : Z) (rest : list Z) : reads s = v :: rest ->
  efm_read32 s a = (mkEfm (etrace s ++ [MR a v]) rest (errs s), v).
Proof. intros H. unfold efm_read32. rewrite H. reflexivity. Qed.

(** [efm32_read_flash_page_size]: for DI versions 1 to 4 it reads MEMINFO once and returns [2^(field + 10)] when the page-size field is at most 20; other versions read nothing and return 0. *)
Theorem efm32_read_flash_page_size_value (v : Z) (s : efm_rec) (w : Z) (rest : list Z) :
  reads s = w :: rest ->
  (if v =? 4 then Z.land w 0xFF else Z.land (Z.shiftr w 24) 0xFF) <= 20 ->
  efm32_read_flash_page_size efm_read32 s v =
  if (1 <=? v) && (v <=? 4) then
    (mkEfm (etrace s ++ [MR (di_meminfo_addr v) w]) rest (errs s),
     2 ^ ((if v =? 4 then Z.land w 0xFF else Z.land (Z.shiftr w 24) 0xFF) + 10))
  else (s, 0).
Proof.
  intros Hr Hf. unfold efm32_read_flash_page_size, EFM32_DI_V4_MEMINFO_FLASHPAGESIZE_OFST,
    EFM32_DI_V4_MEMINFO_FLASHPAGESIZE_MASK, EFM32_DI_MEMINFO_FLASHPAGESIZE_OFST, EFM32_DI_MEMINFO_FLASHPAGESIZE_MASK.
  assert (Hpos : 0 <= (if v =? 4 then Z.land w 0xFF else Z.land (Z.shiftr w 24) 0xFF))
    by (destruct (v =? 4); apply land_ff_range).
  assert (Hsh : forall f, 0 <= f <= 20 -> u32 (Z.shiftl 1 (f + 10)) = 2 ^ (f + 10)).
  { intros f Hf'. rewrite Z.shiftl_1_l. unfold u32. apply Z.mod_small.
    split; [apply Z.pow_nonneg; lia|]. apply Z.pow_lt_mono_r; lia. }
  destruct (Z.eqb_spec v 4) as [E4|E4].
  - subst. cbn -[u32 Z.shiftl Z.land Z.shiftr Z.pow]. rewrite Hr. cbn [hd tl].
    rewrite Z.shiftr_0_r. rewrite Hsh by lia. reflexivity.
  - unfold di_meminfo_addr.
    destruct (Z.eqb_spec v 1); [subst; cbn -[u32 Z.shiftl Z.land Z.shiftr Z.pow];
      rewrite Hr; cbn [hd tl]; rewrite Hsh by lia; reflexivity|].
    destruct (Z.eqb_spec v 2); [subst; cbn -[u32 Z.shiftl Z.land Z.shiftr Z.pow];
      rewrite Hr; cbn [hd tl]; rewrite Hsh by lia; reflexivity|].
    destruct (Z.eqb_spec v 3); [subst; cbn -[u32 Z.shiftl Z.land Z.shiftr Z.pow];
      rewrite Hr; cbn [hd tl]; rewrite Hsh by lia; reflexivity|].
    rewrite (proj2 (Z.eqb_neq v 4) E4).
    replace ((1 <=? v) && (v <=? 4)) with false; [reflexivity|].
    symmetry. apply andb_false_iff. destruct (Z.leb_spec 1 v); [|now left].
    right. apply Z.leb_gt. lia.
Qed.

(** A DI version 3 part with a page-size field of 1 has 2048-byte pages. *)
Lemma efm32_read_flash_page_size_value_witness :
  efm32_read_flash_page_size efm_read32 (mkEfm [] [0x01000000] []) 3 =
  (mkEfm [MR (di_meminfo_addr 3) 0x01000000] [] [], 2048).
Proof.
  rewrite (efm32_read_flash_page_size_value 3 _ 0x01000000 []); [reflexivity|reflexivity|].
  cbn. lia.
Defined.

(** [efm32_read_miscchip] on DI versions 3 and 4: it reads exactly one word, and the pin count, package type and temperature grade it returns are the three low bytes of that word, recombining to the word modulo [2^24]. *)
Theorem efm32_read_miscchip_fields (v : Z) (s : efm_rec) (w : Z) (rest : list Z) :
  (v = 3 \/ v = 4) -> reads s = w :: rest ->
  let r := efm32_read_miscchip efm_read32 s v in
  etrace (fst r) = etrace s ++ [MR (di_pkginfo_addr v) w] /\ reads (fst r) = rest /\
  (0 <= pincount (snd r) < 256 /\ 0 <= pkgtype (snd r) < 256 /\ 0 <= tempgrade (snd r) < 256) /\
  pincount (snd r) * 2 ^ 16 + pkgtype (snd r) * 2 ^ 8 + tempgrade (snd r) = w mod 2 ^ 24.
Proof.
  intros Hv Hr r. subst r. unfold efm32_read_miscchip,
    EFM32_DI_PKGINFO_PINCOUNT_OFST, EFM32_DI_PKGINFO_PINCOUNT_MASK, EFM32_DI_PKGINFO_PKGTYPE_OFST,
    EFM32_DI_PKGINFO_PKGTYPE_MASK, EFM32_DI_PKGINFO_TEMPGRADE_OFST, EFM32_DI_PKGINFO_TEMPGRADE_MASK.
  assert (Ha : (di_pkginfo_addr v =? 0) = false) by (destruct Hv as [->| ->]; reflexivity).
  rewrite Ha. rewrite (efm_read32_cons s _ w rest Hr). cbn [fst snd etrace reads pincount pkgtype tempgrade].
  rewrite !u8_land_ff, Z.shiftr_0_r.
  split; [reflexivity|]. split; [reflexivity|].
  split; [split; [|split]; apply land_ff_range|].
  change 0xFF with (Z.ones 8). rewrite !Z.land_ones by lia.
  rewrite !Z.shiftr_div_pow2 by lia.
  assert (D16 : w / 2 ^ 16 = w / 2 ^ 8 / 2 ^ 8)
    by (rewrite Z.div_div by lia; reflexivity).
  rewrite D16.
  set (w1 := w / 2 ^ 8). set (w2 := w1 / 2 ^ 8).
  assert (E0 : w = w1 * 2 ^ 8 + w mod 2 ^ 8) by (subst w1; pose proof (Z.div_mod w (2 ^ 8)); lia).
  assert (E1 : w1 = w2 * 2 ^ 8 + w1 mod 2 ^ 8) by (subst w2; pose proof (Z.div_mod w1 (2 ^ 8)); lia).
  assert (E2 : w2 = w2 / 2 ^ 8 * 2 ^ 8 + w2 mod 2 ^ 8) by (pose proof (Z.div_mod w2 (2 ^ 8)); lia).
  pose proof (Z.mod_pos_bound w (2 ^ 8) ltac:(lia)).
  pose proof (Z.mod_pos_bound w1 (2 ^ 8) ltac:(lia)).
  pose proof (Z.mod_pos_bound w2 (2 ^ 8) ltac:(lia)).
  apply (Z.mod_unique _ _ (w2 / 2 ^ 8)); [left; change (2 ^ 24) with (2 ^ 8 * 2 ^ 8 * 2 ^ 8);
    change (2 ^ 16) with (2 ^ 8 * 2 ^ 8); nia|].
  change (2 ^ 24) with (2 ^ 8 * 2 ^ 8 * 2 ^ 8). change (2 ^ 16) with (2 ^ 8 * 2 ^ 8).
  rewrite E0 at 1. rewrite E1 at 1. rewrite E2 at 1. ring.
Qed.

(** The package fields of a concrete DI version 4 word. *)
Lemma efm32_read_miscchip_fields_witness :
  (4 = 3 \/ 4 = 4) /\ reads (mkEfm [] [0x00204D01] []) = 0x00204D01 :: [] /\
  let r := efm32_read_miscchip efm_read32 (mkEfm [] [0x00204D01] []) 4 in
  etrace (fst r) = etrace (mkEfm [] [0x00204D01] []) ++ [MR (di_pkginfo_addr 4) 0x00204D01] /\
  reads (fst r) = [] /\
  (0 <= pincount (snd r) < 256 /\ 0 <= pkgtype (snd r) < 256 /\ 0 <= tempgrade (snd r) < 256) /\
  pincount (snd r) * 2 ^ 16 + pkgtype (snd r) * 2 ^ 8 + tempgrade (snd r) = 0x00204D01 mod 2 ^ 24.
Proof.
  split; [right; reflexivity|]. split; [reflexivity|].
  exact (efm32_read_miscchip_fields 4 (mkEfm [] [0x00204D01] []) 0x00204D01 [] (or_intror eq_refl) eq_refl).
Defined.

(** [efm32_cmd_erase_all]: with no device it returns true and leaves the target alone. Otherwise it writes WRITECTRL, the MASSLOCK unlock key and ERASEMAIN0, then polls. It relocks MASSLOCK only when the poll succeeds, and the command returns false exactly when the poll aborts. *)
Theorem efm32_cmd_erase_all_sequence (fuel : nat) (s s' : efm_rec) (driver2 : Z) (b : bool) :
  efm32_cmd_erase_all efm_read32 efm_write32 efm_check_error fuel s driver2 = Some (s', b) ->
  match efm32_get_device (driver2 - 32) with
  | None => s' = s /\ b = true
  | Some d =>
      let msc := msc_addr d in
      let pre := [MW (EFM32_MSC_WRITECTRL msc) 1;
                  MW (EFM32_MSC_MASSLOCK msc) EFM32_MSC_MASSLOCK_LOCKKEY;
                  MW (EFM32_MSC_WRITECMD msc) EFM32_MSC_WRITECMD_ERASEMAIN0] in
      exists e,
        (b = true /\ poll_ok msc e /\
         etrace s' = etrace s ++ pre ++ e ++ [MW (EFM32_MSC_MASSLOCK msc) 0]) \/
        (b = false /\ poll_abort msc e /\ etrace s' = etrace s ++ pre ++ e)
  end.
Proof.
  unfold efm32_cmd_erase_all. destruct (efm32_get_device (driver2 - 32)) as [d|].
  - intros H. cbv zeta.
    destruct (efm32_poll_busy efm_read32 efm_check_error fuel _ (msc_addr d)) as [[s1 ab]|] eqn:Ep;
      [|discriminate].
    apply efm_poll_trace in Ep. destruct Ep as [e [He Hp]]. cbn [efm_write32 etrace] in He.
    exists e. destruct ab.
    + injection H as <- <-. right. split; [reflexivity|]. split; [exact Hp|].
      rewrite He, <- !app_assoc. reflexivity.
    + injection H as <- <-. left. split; [reflexivity|]. split; [exact Hp|].
      cbn [efm_write32 etrace]. rewrite He, <- !app_assoc. reflexivity.
  - intros H. injection H as <- <-. split; reflexivity.
Qed.

(** A mass erase of a concrete device whose poll sees the busy bit clear at once. *)
Lemma efm32_cmd_erase_all_sequence_witness :
  exists s',
    efm32_cmd_erase_all efm_read32 efm_write32 efm_check_error 1 (mkEfm [] [0] []) 32 = Some (s', true) /\
    match efm32_get_device (32 - 32) with
    | None => s' = mkEfm [] [0] [] /\ true = true
    | Some d =>
        let msc := msc_addr d in
        let pre := [MW (EFM32_MSC_WRITECTRL msc) 1;
                    MW (EFM32_MSC_MASSLOCK msc) EFM32_MSC_MASSLOCK_LOCKKEY;
                    MW (EFM32_MSC_WRITECMD msc) EFM32_MSC_WRITECMD_ERASEMAIN0] in
        exists e,
          (true = true /\ poll_ok msc e /\
           etrace s' = etrace (mkEfm [] [0] []) ++ pre ++ e ++ [MW (EFM32_MSC_MASSLOCK msc) 0]) \/
          (true = false /\ poll_abort msc e /\ etrace s' = etrace (mkEfm [] [0] []) ++ pre ++ e)
    end.
Proof.
  eexists. split; [reflexivity|].
  apply (efm32_cmd_erase_all_sequence 1 (mkEfm [] [0] []) _ 32 true). reflexivity.
Defined.

(** [efm32_cmd_bootloader] with an argument: it reads CLW0, unlocks the MSC, enables writes, loads the CLW0 address, writes one word and issues WRITEONCE, then polls. The word written only clears bits of the old CLW0. Below bit 32 it keeps every bit except bit 1, which stays set only for an argument starting with [e] (enable). *)
Theorem efm32_cmd_bootloader_write (fuel : nat) (s s' : efm_rec) (driver2 argc arg1c c : Z)
    (d : efm32_device_t) (rest : list Z) (b : bool) :
  efm32_get_device (driver2 - 32) = Some d -> bootloader_size d <> 0 -> argc <> 1 ->
  reads s = c :: rest ->
  efm32_cmd_bootloader efm_read32 efm_write32 efm_check_error fuel s driver2 argc arg1c = Some (s', b) ->
  let msc := msc_addr d in
  exists w e,
    etrace s' = etrace s ++
      [MR EFM32_LOCK_BITS_CLW0 c; MW (EFM32_MSC_LOCK msc) EFM32_MSC_LOCK_LOCKKEY;
       MW (EFM32_MSC_WRITECTRL msc) 1; MW (EFM32_MSC_ADDRB msc) EFM32_LOCK_BITS_CLW0;
       MW (EFM32_MSC_WRITECMD msc) EFM32_MSC_WRITECMD_LADDRIM; MW (EFM32_MSC_WDATA msc) w;
       MW (EFM32_MSC_WRITECMD msc) EFM32_MSC_WRITECMD_WRITEONCE] ++ e /\
    (if b then poll_ok msc e else poll_abort msc e) /\
    Z.land w (Z.lnot c) = 0 /\
    (forall n, 0 <= n < 32 ->
       Z.testbit w n = if (n =? 1) && negb (arg1c =? 101) then false else Z.testbit c n).
Proof.
  intros Hd Hbl Ha Hr H msc. unfold efm32_cmd_bootloader in H. rewrite Hd in H.
  rewrite (proj2 (Z.eqb_neq _ 0) Hbl) in H. rewrite (efm_read32_cons s _ c rest Hr) in H.
  rewrite (proj2 (Z.eqb_neq _ 1) Ha) in H.
  destruct (efm32_poll_busy efm_read32 efm_check_error fuel _ (msc_addr d)) as [[s1 ab]|] eqn:Ep;
    [|discriminate].
  apply efm_poll_trace in Ep. destruct Ep as [e [He Hp]]. cbn [efm_write32 etrace] in He.
  exists (Z.land c (if arg1c =? 101 then 0xFFFFFFFF else not32 EFM32_CLW0_BOOTLOADER_ENABLE)), e.
  assert (Hs : s1 = s' /\ ab = negb b) by (destruct ab; injection H as <- <-; auto).
  destruct Hs as [<- ->]. split; [rewrite He, <- !app_assoc; reflexivity|].
  split; [destruct b; exact Hp|]. split.
  - apply Z.bits_inj'. intros n Hn. rewrite Z.land_spec, Z.lnot_spec, !Z.land_spec, Z.bits_0 by lia.
    destruct (Z.testbit c n); cbn [negb andb]; [apply andb_false_r|reflexivity].
  - intros n Hn. rewrite Z.land_spec. unfold not32, EFM32_CLW0_BOOTLOADER_ENABLE.
    destruct (arg1c =? 101); cbn [negb andb].
    + change 0xFFFFFFFF with (Z.ones 32). rewrite Z.ones_spec_low by lia. now rewrite !andb_false_r, andb_true_r.
    + unfold u32. rewrite Z.mod_pow2_bits_low by lia. rewrite Z.lnot_spec by lia.
      rewrite andb_true_r. destruct (Z.eqb_spec n 1) as [->|Hn1]; [apply andb_false_r|].
      change 2 with (2 ^ 1). rewrite Z.pow2_bits_false by lia. apply andb_true_r.
Qed.

(** Disabling the bootloader of a concrete device whose CLW0 is all ones. *)
Lemma efm32_cmd_bootloader_write_witness :
  exists s',
    efm32_cmd_bootloader efm_read32 efm_write32 efm_check_error 1 (mkEfm [] [0xFFFFFFFF; 0] []) 42 2 100
      = Some (s', true) /\
    exists w e,
      etrace s' = etrace (mkEfm [] [0xFFFFFFFF; 0] []) ++
        [MR EFM32_LOCK_BITS_CLW0 0xFFFFFFFF; MW (EFM32_MSC_LOCK 0x400e0000) EFM32_MSC_LOCK_LOCKKEY;
         MW (EFM32_MSC_WRITECTRL 0x400e0000) 1; MW (EFM32_MSC_ADDRB 0x400e0000) EFM32_LOCK_BITS_CLW0;
         MW (EFM32_MSC_WRITECMD 0x400e0000) EFM32_MSC_WRITECMD_LADDRIM; MW (EFM32_MSC_WDATA 0x400e0000) w;
         MW (EFM32_MSC_WRITECMD 0x400e0000) EFM32_MSC_WRITECMD_WRITEONCE] ++ e /\
      poll_ok 0x400e0000 e /\
      Z.land w (Z.lnot 0xFFFFFFFF) = 0 /\
      (forall n, 0 <= n < 32 ->
         Z.testbit w n = if (n =? 1) && negb (100 =? 101) then false else Z.testbit 0xFFFFFFFF n).
Proof.
  eexists. split; [reflexivity|].
  apply (efm32_cmd_bootloader_write 1 (mkEfm [] [0xFFFFFFFF; 0] []) _ 42 2 100 0xFFFFFFFF
           (nth 10 efm32_devices (mkDev 0 0 "" 0 0 false 0 0 "")) [0] true);
    [reflexivity | vm_compute; discriminate | lia | reflexivity | reflexivity].
Defined.

(** [table_last_match] keeps its accumulator when no key matches. *)
Lemma table_last_match_none (tbl : list (Z * string)) (k : Z) : forall acc,
  table_last_match tbl k acc = None <-> acc = None /\ ~ In k (map fst tbl).
Proof.
  induction tbl as [|[k' n] tbl IH]; intros acc; cbn [table_last_match map fst In].
  - tauto.
  - rewrite IH. destruct (Z.eqb_spec k' k) as [->|Hk].
    + split; [intros [H _]; discriminate|intros [_ H]; tauto].
    + split; intros [H1 H2]; (split; [exact H1|]).
      * intros [H|H]; [congruence|tauto].
      * tauto.
Qed.

(** [efm32_cmd_efm_info] on a DI version 3 or 4 part: it stops with a null package exactly when the package type is not one of 74, 76, 77 and 81. It stops with an uninitialised temperature grade exactly when the package is known and the grade is above 3. It completes exactly when both are known. *)
Theorem efm32_cmd_efm_info_package (s : efm_rec) (driver0 driver2 p m1 m2 mi pk : Z) (rest : list Z) :
  (u8 (driver0 - 48) = 3 \/ u8 (driver0 - 48) = 4) ->
  efm32_get_device (driver2 - 32) <> None ->
  reads s = p :: m1 :: m2 :: mi :: pk :: rest ->
  let pkt := Z.land (Z.shiftr pk 8) 0xFF in
  let tg := Z.land pk 0xFF in
  let o := snd (efm32_cmd_efm_info efm_read32 efm_read16 s driver0 driver2) in
  (o = InfoNullPackage <-> ~ In pkt [74; 76; 77; 81]) /\
  (o = InfoUninitTempgrade <-> In pkt [74; 76; 77; 81] /\ 3 < tg) /\
  ((exists r, o = InfoDone r) <-> In pkt [74; 76; 77; 81] /\ tg <= 3).
Proof.
  intros Hv Hd Hr pkt tg o.
  assert (Ho : match table_last_match efm32_di_pkgtypes pkt None with
               | None => o = InfoNullPackage
               | Some _ => match table_last_match efm32_di_tempgrades tg None with
                           | None => o = InfoUninitTempgrade
                           | Some _ => exists r, o = InfoDone r end end).
  { subst o pkt tg. unfold efm32_cmd_efm_info.
    destruct (efm32_get_device (driver2 - 32)) as [dv|]; [|congruence].
    destruct Hv as [Hv|Hv]; rewrite Hv;
      cbn -[u8 u16 u32 Z.shiftl Z.land Z.shiftr Z.pow table_last_match efm32_di_pkgtypes efm32_di_tempgrades];
      rewrite Hr; cbn [hd tl]; unfold EFM32_DI_PKGINFO_PKGTYPE_OFST;
      rewrite ?u8_land_ff, ?Z.shiftr_0_r;
      destruct (table_last_match efm32_di_pkgtypes (Z.land (Z.shiftr pk 8) 255) None);
      destruct (table_last_match efm32_di_tempgrades (Z.land pk 255) None);
      try reflexivity; eexists; reflexivity. }
  assert (Htg : 0 <= tg) by apply land_ff_range.
  pose proof (table_last_match_none efm32_di_pkgtypes pkt None) as Hp.
  pose proof (table_last_match_none efm32_di_tempgrades tg None) as Ht.
  cbn [efm32_di_pkgtypes efm32_di_tempgrades map fst] in Hp, Ht.
  clearbody o.
  destruct (table_last_match efm32_di_pkgtypes pkt None) as [pn|].
  - assert (Hin : In pkt [74; 76; 77; 81]).
    { destruct (In_dec Z.eq_dec pkt [74; 76; 77; 81]) as [Hi|Hi]; [exact Hi|].
      destruct Hp as [_ Hp]. discriminate (Hp (conj eq_refl Hi)). }
    destruct (table_last_match efm32_di_tempgrades tg None) as [tn|].
    + assert (Hle : tg <= 3).
      { destruct (Z.le_gt_cases tg 3) as [Hl|Hl]; [exact Hl|].
        assert (Hn : ~ In tg [0; 1; 2; 3]) by (cbn; lia).
        destruct Ht as [_ Ht]. discriminate (Ht (conj eq_refl Hn)). }
      destruct Ho as [r ->].
      split; [split; [discriminate|tauto]|]. split; [split; [discriminate|lia]|].
      split; [auto|intros _; eauto].
    + assert (Hgt : 3 < tg).
      { destruct Ht as [Ht _]. destruct (Ht eq_refl) as [_ Hn]. cbn in Hn. lia. }
      subst o. split; [split; [discriminate|tauto]|]. split; [tauto|].
      split; [intros [r Hr']; discriminate|lia].
  - destruct Hp as [Hp _]. destruct (Hp eq_refl) as [_ Hn]. subst o.
    split; [tauto|]. split; [split; [discriminate|tauto]|].
    split; [intros [r Hr']; discriminate|tauto].
Qed.

(** [efm32_cmd_efm_info] on a concrete part with package type 77 and grade 1. *)
Lemma efm32_cmd_efm_info_package_witness :
  u8 (51 - 48) = 3 /\ efm32_get_device (42 - 32) <> None /\
  let pkt := Z.land (Z.shiftr 0x00204D01 8) 0xFF in
  let tg := Z.land 0x00204D01 0xFF in
  let o := snd (efm32_cmd_efm_info efm_read32 efm_read16 (mkEfm [] [0; 0; 0; 0; 0x00204D01] []) 51 42) in
  (o = InfoNullPackage <-> ~ In pkt [74; 76; 77; 81]) /\
  (o = InfoUninitTempgrade <-> In pkt [74; 76; 77; 81] /\ 3 < tg) /\
  ((exists r, o = InfoDone r) <-> In pkt [74; 76; 77; 81] /\ tg <= 3).
Proof.
  split; [reflexivity|]. split; [intros H; vm_compute in H; discriminate|].
  apply (efm32_cmd_efm_info_package (mkEfm [] [0; 0; 0; 0; 0x00204D01] []) 51 42 0 0 0 0 0x00204D01 []);
    [left; reflexivity | intros H; vm_compute in H; discriminate | reflexivity].
Defined.

(** The device table has 61 rows. *)
Lemma efm32_devices_nb_61 : efm32_devices_nb = 61.
Proof. reflexivity. Qed.

(** [efm32_get_device] only succeeds on indices 0 to 60. *)
Lemma efm32_get_device_range (i : Z) (d : efm32_device_t) :
  efm32_get_device i = Some d -> 0 <= i < 61 /\ nth_error efm32_devices (Z.to_nat i) = Some d.
Proof.
  unfold efm32_get_device. rewrite efm32_devices_nb_61.
  destruct ((i <? 0) || (i >=? 61)) eqn:E; [discriminate|]. intros H.
  apply orb_false_iff in E. destruct E as [E1 E2]. apply Z.ltb_ge in E1.
  rewrite Z.geb_leb in E2. apply Z.leb_gt in E2. auto.
Qed.

(** [efm32_get_device] is the row at that index. *)
Lemma efm32_get_device_nth (k : nat) (d : efm32_device_t) :
  nth_error efm32_devices k = Some d -> efm32_get_device (Z.of_nat k) = Some d.
Proof.
  intros H. assert (Hk : (k < length efm32_devices)%nat) by (apply nth_error_Some; congruence).
  change (length efm32_devices) with 61%nat in Hk.
  unfold efm32_get_device. rewrite efm32_devices_nb_61.
  replace ((Z.of_nat k <? 0) || (Z.of_nat k >=? 61)) with false.
  - rewrite Nat2Z.id. exact H.
  - symmetry. apply orb_false_iff. split; [apply Z.ltb_ge; lia|].
    rewrite Z.geb_leb. apply Z.leb_gt. lia.
Qed.

(** The table search returns the first row with the family, or runs past the end. *)
Lemma family_search_spec (devs : list efm32_device_t) (pf : Z) : forall i,
  (family_search devs i pf = EFM32_UNKNOWN_FAMILY /\ Forall (fun d => family_id d <> pf) devs) \/
  (exists k d, family_search devs i pf = i + Z.of_nat k /\ nth_error devs k = Some d /\
     family_id d = pf /\
     forall j d', (j < k)%nat -> nth_error devs j = Some d' -> family_id d' <> pf).
Proof.
  induction devs as [|d0 devs IH]; intros i; cbn [family_search].
  - left. split; [reflexivity|constructor].
  - destruct (Z.eqb_spec (family_id d0) pf) as [E|E].
    + right. exists O, d0. split; [lia|]. split; [reflexivity|]. split; [exact E|].
      intros j d' Hj. lia.
    + destruct (IH (i + 1)) as [[H1 H2]|[k [d [H1 [H2 [H3 H4]]]]]].
      * left. split; [exact H1|]. constructor; assumption.
      * right. exists (Datatypes.S k), d. split; [rewrite H1; lia|]. split; [exact H2|].
        split; [exact H3|]. intros [|j] d' Hj Hn.
        -- injection Hn as <-. exact E.
        -- apply (H4 j); [lia|exact Hn].
Qed.

(** The unknown-family index selects no device. *)
Lemma efm32_get_device_unknown : efm32_get_device EFM32_UNKNOWN_FAMILY = None.
Proof. reflexivity. Qed.

Section Lookup.
Context {S : Type}.
Variable rd : S -> Z -> S * Z.

(** [efm32_lookup_device_index]: either no row has the family read from the part and the result is the unknown index, which selects no device, or the result selects the first row with that family. *)
Theorem efm32_lookup_device_index_first (s : S) (v : Z) :
  let pf := snd (efm32_read_part_family rd s v) in
  let i := snd (efm32_lookup_device_index rd s v) in
  (i = EFM32_UNKNOWN_FAMILY /\ efm32_get_device i = None /\
   forall d, In d efm32_devices -> family_id d <> pf) \/
  (exists d, efm32_get_device i = Some d /\ family_id d = pf /\
   forall j d', 0 <= j < i -> efm32_get_device j = Some d' -> family_id d' <> pf).
Proof.
  intros pf i. subst pf i. unfold efm32_lookup_device_index.
  destruct (efm32_read_part_family rd s v) as [s1 pf]. cbn [snd].
  destruct (family_search_spec efm32_devices pf 0) as [[H1 H2]|[k [d [H1 [H2 [H3 H4]]]]]].
  - left. rewrite H1. split; [reflexivity|]. split; [reflexivity|].
    intros d Hd. rewrite Forall_forall in H2. auto.
  - right. exists d. rewrite H1. cbn [Z.add]. split; [apply efm32_get_device_nth; exact H2|].
    split; [exact H3|]. intros j d' Hj Hd'.
    apply efm32_get_device_range in Hd'. destruct Hd' as [_ Hd'].
    apply (H4 (Z.to_nat j)); [lia|exact Hd'].
Qed.

(** [efm32_lookup_device_index] never returns 41: row 41 repeats an earlier family and can never be selected. *)
Theorem efm32_lookup_device_index_shadowed (s : S) (v : Z) :
  snd (efm32_lookup_device_index rd s v) <> 41.
Proof.
  intros H41. destruct (efm32_lookup_device_index_first s v) as [[Hu _]|[d [Hd [Hf Hfirst]]]].
  - rewrite H41 in Hu. discriminate.
  - rewrite H41 in Hd, Hfirst. assert (Hfam : family_id d = 45) by (vm_compute in Hd; injection Hd as <-; reflexivity).
    apply (Hfirst 40 (nth 40 efm32_devices d)); [lia|reflexivity|].
    rewrite <- Hf, Hfam. reflexivity.
Qed.

(** On a DI version 4 part the family read is a 7-bit field. *)
Lemma efm32_read_part_family_v4_bound (s : S) : 0 <= snd (efm32_read_part_family rd s 4) <= 126.
Proof.
  unfold efm32_read_part_family. cbn [Z.eqb Pos.eqb orb].
  destruct (rd s (di_part_addr 4)) as [s1 reg]. cbn [snd].
  unfold EFM32_DI_V4_PART_FAMILYNUM_MASK, EFM32_DI_V4_PART_FAMILY_MASK, u8.
  change 0x3F with (Z.ones 6). rewrite !Z.land_ones by lia.
  set (a := Z.shiftr reg EFM32_DI_V4_PART_FAMILYNUM_OFST mod 2 ^ 6).
  set (b := Z.shiftr reg EFM32_DI_V4_PART_FAMILY_OFST mod 2 ^ 6).
  assert (0 <= a < 64) by (apply Z.mod_pos_bound; lia).
  assert (0 <= b < 64) by (apply Z.mod_pos_bound; lia).
  rewrite (Z.mod_small a), (Z.mod_small b), Z.mod_small by lia. lia.
Qed.

(** What a successful [efm32_probe] stores in its target. *)
Lemma efm32_probe_inv (s s' : S) (idcode : Z) (t : efm32_target) :
  efm32_probe rd s idcode = (s', Some t) ->
  ((idcode = 0x2BA01477 /\ t_di_version t = 3) \/ (idcode = 0x0BC11477 /\ t_di_version t = 2) \/
   (idcode = 0x6BA02477 /\ t_di_version t = 4)) /\
  snd (efm32_lookup_device_index rd s (t_di_version t)) = t_device_index t /\
  t_driver2 t = u8 (u8 (t_device_index t) + 32) /\
  exists d, efm32_get_device (t_device_index t) = Some d.
Proof.
  intros H. unfold efm32_probe in H.
  destruct (Z.eqb_spec idcode 0x2BA01477) as [E1|E1];
    [|destruct (Z.eqb_spec idcode 0x0BC11477) as [E2|E2];
      [|destruct (Z.eqb_spec idcode 0x6BA02477) as [E3|E3]; [|discriminate]]];
    cbn beta iota in H;
    (destruct (efm32_lookup_device_index rd s _) as [s1 i] eqn:El;
     destruct (i =? EFM32_UNKNOWN_FAMILY); [discriminate|];
     destruct (efm32_get_device i) as [d|] eqn:Ed; [|discriminate];
     destruct (efm32_read_part_number rd s1 _) as [s2 pn];
     destruct (efm32_read_flash_size rd s2 _) as [s3 fk];
     destruct (efm32_read_ram_size rd s3 _) as [s4 rk];
     injection H as <- <-; cbn [t_di_version t_device_index t_driver2]; rewrite El;
     split; [tauto|]; split; [reflexivity|]; split; [reflexivity|]; exists d; exact Ed).
Qed.

(** A successful [efm32_probe] encodes the DI version and device index in the variant string in a way the commands decode again. The version character gives back the DI version. The third character, less 32, gives back the device index and selects a device. [efm32_cmd_serial] then reads the unique number with the probed DI version. *)
Theorem efm32_probe_driver_roundtrip (s s' : S) (idcode : Z) (t : efm32_target) :
  efm32_probe rd s idcode = (s', Some t) ->
  let drv := efm32_variant_prefix (t_di_version t) (t_device_index t) in
  driver_di_version drv = t_di_version t /\
  nth 2 drv 0 = t_driver2 t /\
  t_driver2 t - 32 = t_device_index t /\
  efm32_get_device (nth 2 drv 0 - 32) <> None /\
  (forall s0, efm32_cmd_serial rd s0 drv = efm32_read_unique rd s0 (t_di_version t)).
Proof.
  intros H drv. destruct (efm32_probe_inv s s' idcode t H) as [Hv [_ [H2 [d Hd]]]].
  assert (Hdv : driver_di_version drv = t_di_version t)
    by (subst drv; unfold driver_di_version, efm32_variant_prefix; cbn [nth];
        destruct Hv as [[_ ->]|[[_ ->]|[_ ->]]]; reflexivity).
  assert (Hr := efm32_get_device_range _ _ Hd). destruct Hr as [Hi _].
  assert (H32 : t_driver2 t - 32 = t_device_index t).
  { rewrite H2. unfold u8. rewrite (Z.mod_small (t_device_index t)) by lia.
    rewrite Z.mod_small by lia. lia. }
  split; [exact Hdv|]. split; [subst drv; cbn [efm32_variant_prefix nth]; symmetry; exact H2|].
  split; [exact H32|].
  split; [subst drv; cbn [efm32_variant_prefix nth]; rewrite <- H2, H32, Hd; discriminate|].
  intros s0. unfold efm32_cmd_serial. rewrite Hdv. reflexivity.
Qed.

(** A part probed through the Cortex-M33 IDCODE (DI version 4) always resolves to a row with a family id of at most 126 whose own DI version is not 4. *)
Theorem efm32_probe_v4_series1_row (s s' : S) (t : efm32_target) :
  efm32_probe rd s 0x6BA02477 = (s', Some t) ->
  t_di_version t = 4 /\
  exists d, efm32_get_device (t_device_index t) = Some d /\ family_id d <= 126 /\ di_version d <> 4.
Proof.
  intros H. destruct (efm32_probe_inv s s' _ t H) as [Hv [Hl [_ [d Hd]]]].
  assert (H4 : t_di_version t = 4) by (destruct Hv as [[E _]|[[E _]|[_ E]]]; [discriminate E|discriminate E|exact E]).
  split; [exact H4|]. exists d. split; [exact Hd|].
  rewrite H4 in Hl.
  destruct (efm32_lookup_device_index_first s 4) as [[Hu [Hn _]]|[d' [Hd' [Hf _]]]].
  - rewrite Hl in Hn. congruence.
  - rewrite Hl, Hd in Hd'. injection Hd' as <-.
    pose proof (efm32_read_part_family_v4_bound s) as Hb. rewrite <- Hf in Hb.
    split; [lia|].
    assert (Htab : forallb (fun d => (126 <? family_id d) || negb (EFM32.di_version d =? 4)) efm32_devices = true)
      by reflexivity.
    rewrite forallb_forall in Htab.
    apply efm32_get_device_range in Hd. destruct Hd as [_ Hd].
    specialize (Htab d (nth_error_In _ _ Hd)).
    apply orb_true_iff in Htab. destruct Htab as [Ht|Ht]; [apply Z.ltb_lt in Ht; lia|].
    apply negb_true_iff, Z.eqb_neq in Ht. exact Ht.
Qed.

End Lookup.

(** The variant string of a concrete part probed through the Cortex-M3/M4 IDCODE (DI version 3). *)
Lemma efm32_probe_driver_roundtrip_witness :
  exists s' t,
    efm32_probe efm_read32 (mkEfm [] [0x00510000; 0; 0; 0] []) 0x2BA01477 = (s', Some t) /\
    let drv := efm32_variant_prefix (t_di_version t) (t_device_index t) in
    driver_di_version drv = t_di_version t /\
    nth 2 drv 0 = t_driver2 t /\
    t_driver2 t - 32 = t_device_index t /\
    efm32_get_device (nth 2 drv 0 - 32) <> None /\
    (forall s0, efm32_cmd_serial efm_read32 s0 drv = efm32_read_unique efm_read32 s0 (t_di_version t)).
Proof.
  eexists; eexists. split; [reflexivity|].
  eapply (efm32_probe_driver_roundtrip efm_read32 (mkEfm [] [0x00510000; 0; 0; 0] []) _ 0x2BA01477).
  reflexivity.
Defined.

(** A concrete part probed through the Cortex-M33 IDCODE (DI version 4). *)
Lemma efm32_probe_v4_series1_row_witness :
  exists s' t,
    efm32_probe efm_read32 (mkEfm [] [0x002D0000; 0; 0; 0] []) 0x6BA02477 = (s', Some t) /\
    t_di_version t = 4 /\
    exists d, efm32_get_device (t_device_index t) = Some d /\ family_id d <= 126 /\ di_version d <> 4.
Proof.
  eexists; eexists. split; [reflexivity|].
  eapply (efm32_probe_v4_series1_row efm_read32 (mkEfm [] [0x002D0000; 0; 0; 0] [])).
  reflexivity.
Defined.

Section NoDevice.
Context {S : Type}.
Variable rd rd16 : S -> Z -> S * Z.
Variable wr : S -> Z -> Z -> S.
Variable ce : S -> S * bool.

(** With a device byte outside the table, the flash erase, the mass erase and the bootloader command all give up at once without touching the target. The erase returns 1 and the two commands return true. [efm32_cmd_efm_info] also leaves the target alone and reports no device or a bad DI version. *)
Theorem efm32_commands_no_device (fuel pfuel : nat) (s : S) (driver0 driver2 argc arg1c bs addr len : Z) :
  driver2 < 32 \/ 93 <= driver2 ->
  efm32_flash_erase rd wr ce fuel pfuel s driver2 bs addr len = Some (s, 1) /\
  efm32_cmd_erase_all rd wr ce fuel s driver2 = Some (s, true) /\
  efm32_cmd_bootloader rd wr ce fuel s driver2 argc arg1c = Some (s, true) /\
  fst (efm32_cmd_efm_info rd rd16 s driver0 driver2) = s /\
  (snd (efm32_cmd_efm_info rd rd16 s driver0 driver2) = InfoNoDevice \/
   exists v, snd (efm32_cmd_efm_info rd rd16 s driver0 driver2) = InfoBadVersion v).
Proof.
  intros Hr.
  assert (Hn : efm32_get_device (driver2 - 32) = None).
  { unfold efm32_get_device. rewrite efm32_devices_nb_61.
    replace ((driver2 - 32 <? 0) || (driver2 - 32 >=? 61)) with true; [reflexivity|].
    symmetry. apply orb_true_iff. destruct Hr as [Hr|Hr]; [left; apply Z.ltb_lt; lia|].
    right. rewrite Z.geb_leb. apply Z.leb_le. lia. }
  unfold efm32_flash_erase, efm32_cmd_erase_all, efm32_cmd_bootloader, efm32_cmd_efm_info.
  rewrite Hn. split; [reflexivity|]. split; [reflexivity|]. split; [reflexivity|].
  destruct (negb _); cbn [fst snd]; [split; [reflexivity|right; eexists; reflexivity]|].
  split; [reflexivity|left; reflexivity].
Qed.

End NoDevice.

(** The commands on a variant string whose device byte is 20, below the table. *)
Lemma efm32_commands_no_device_witness :
  (20 < 32 \/ 93 <= 20) /\
  efm32_flash_erase efm_read32 efm_write32 efm_check_error 1 1 (mkEfm [] [] []) 20 1024 0 1024
    = Some (mkEfm [] [] [], 1) /\
  efm32_cmd_erase_all efm_read32 efm_write32 efm_check_error 1 (mkEfm [] [] []) 20 = Some (mkEfm [] [] [], true) /\
  efm32_cmd_bootloader efm_read32 efm_write32 efm_check_error 1 (mkEfm [] [] []) 20 2 101
    = Some (mkEfm [] [] [], true) /\
  fst (efm32_cmd_efm_info efm_read32 efm_read16 (mkEfm [] [] []) 51 20) = mkEfm [] [] [] /\
  (snd (efm32_cmd_efm_info efm_read32 efm_read16 (mkEfm [] [] []) 51 20) = InfoNoDevice \/
   exists v, snd (efm32_cmd_efm_info efm_read32 efm_read16 (mkEfm [] [] []) 51 20) = InfoBadVersion v).
Proof.
  split; [lia|].
  apply (efm32_commands_no_device efm_read32 efm_read16 efm_write32 efm_check_error 1 1 (mkEfm [] [] [])
           51 20 2 101 1024 0 1024).
  lia.
Defined.

End EFM32Extra.



Module TransportExtra.
Import ADIv5 TransportFacts.

(** A left shift that stays below [2^32] does not wrap. *)
Lemma shiftl_u32_small (v k : Z) : 0 <= v -> 0 <= k -> v * 2 ^ k < 2 ^ 32 ->
  u32 (Z.shiftl v k) = v * 2 ^ k.
Proof. intros Hv Hk Hlt. unfold u32. rewrite Z.shiftl_mul_pow2 by lia. apply Z.mod_small. nia. Qed.

(** A value below [2^n] is unchanged by an [n]-bit mask. *)
Lemma land_ones_small (v n : Z) : 0 <= n -> 0 <= v < 2 ^ n -> Z.land v (Z.ones n) = v.
Proof. intros Hn Hv. rewrite Z.land_ones by lia. apply Z.mod_small. lia. Qed.

(** [extract] undoes [pack]: a byte or halfword value put on its byte lane of the 32-bit data register comes back from the same address; words come back unchanged. *)
Theorem adiv5_lane_roundtrip (al : align) (a v : Z) :
  0 <= v -> (al = ALIGN_BYTE -> v < 2 ^ 8) -> (al = ALIGN_HALFWORD -> v < 2 ^ 16) ->
  extract a (pack a v al) al = v.
Proof.
  intros Hv Hb Hh.
  assert (Hgen : forall k w m, 0 <= k -> 0 <= w < 2 ^ m -> 0 <= m -> 2 ^ m * 2 ^ k <= 2 ^ 32 ->
            Z.land (Z.shiftr (u32 (Z.shiftl w k)) k) (Z.ones m) = w).
  { intros k w m Hk Hw Hm Hle. assert (Hp : 0 < 2 ^ k) by (apply Z.pow_pos_nonneg; lia).
    assert (Hlt : w * 2 ^ k < 2 ^ m * 2 ^ k) by (apply Z.mul_lt_mono_pos_r; lia).
    rewrite shiftl_u32_small by lia.
    rewrite Z.shiftr_div_pow2, Z.div_mul by lia.
    apply land_ones_small; lia. }
  destruct al; cbn [extract pack]; try reflexivity.
  - specialize (Hb eq_refl). rewrite land_3.
    assert (Hm : 0 <= a mod 4 < 4) by (apply Z.mod_pos_bound; lia).
    rewrite (Z.shiftl_mul_pow2 (a mod 4) 3) by lia. change (2 ^ 3) with 8. change 0xFF with (Z.ones 8).
    apply Hgen; try lia.
    assert (2 ^ (a mod 4 * 8) <= 2 ^ 24) by (apply Z.pow_le_mono_r; lia).
    change (2 ^ 32) with (2 ^ 8 * 2 ^ 24). nia.
  - specialize (Hh eq_refl).
    assert (Hm : 0 <= Z.land a 2 <= 2).
    { assert (Ha : Z.land a 2 = Z.land (a mod 4) 2) by (rewrite <- land_3, <- Z.land_assoc; reflexivity).
      assert (0 <= a mod 4 < 4) by (apply Z.mod_pos_bound; lia).
      assert (Hc : a mod 4 = 0 \/ a mod 4 = 1 \/ a mod 4 = 2 \/ a mod 4 = 3) by lia.
      rewrite Ha. destruct Hc as [E|[E|[E|E]]]; rewrite E; cbn; lia. }
    rewrite (Z.shiftl_mul_pow2 (Z.land a 2) 3) by lia. change (2 ^ 3) with 8. change 0xFFFF with (Z.ones 16).
    apply Hgen; try lia.
    assert (2 ^ (Z.land a 2 * 8) <= 2 ^ 16) by (apply Z.pow_le_mono_r; lia).
    change (2 ^ 32) with (2 ^ 16 * 2 ^ 16). nia.
Qed.

(** A byte at an odd address survives the lane round trip. *)
Lemma adiv5_lane_roundtrip_witness :
  extract 0x20000001 (pack 0x20000001 0xAB ALIGN_BYTE) ALIGN_BYTE = 0xAB.
Proof.
  apply (adiv5_lane_roundtrip ALIGN_BYTE 0x20000001 0xAB); [lia | intros _; lia | intros H; discriminate].
Defined.

(** The transfer loop of [adiv5_mem_read] returns one unit per iteration. *)
Lemma mem_read_loop_length {S : Type} (la : S -> rnw -> reg -> Z -> S * Z) (al : align) (n : nat) :
  forall s dest src osrc,
  length (snd (fst (mem_read_loop la al n s dest src osrc))) = (length dest + n)%nat.
Proof.
  induction n as [|n IH]; intros s dest src osrc; cbn [mem_read_loop].
  - cbn. lia.
  - destruct (la s ADIV5_LOW_READ ADIV5_AP_DRW 0) as [s1 tmp].
    destruct (tar_wrapped _ _); rewrite IH, length_app; cbn [length]; lia.
Qed.

(** [adiv5_mem_read] returns [len] bytes: the number of units times the unit size is [len]. *)
Theorem adiv5_mem_read_byte_count {S : Type} (la : S -> rnw -> reg -> Z -> S * Z)
    (ap : ADIv5_AP) (s : S) (src len : Z) :
  0 <= len ->
  Z.of_nat (length (snd (adiv5_mem_read la ap s src len)))
    * 2 ^ align_val (align_min (ALIGNOF src) (ALIGNOF len)) = len.
Proof.
  intros Hl. unfold adiv5_mem_read.
  destruct (Z.eqb_spec len 0) as [E|E]; [subst; reflexivity|].
  destruct (mem_read_count src len ltac:(lia)) as [_ [H1 H2]].
  set (al := align_min (ALIGNOF src) (ALIGNOF len)) in *.
  set (s1 := fst (la (ap_mem_access_setup la ap s src al) ADIV5_LOW_READ ADIV5_AP_DRW 0)).
  pose proof (mem_read_loop_length la al (Z.to_nat (Z.shiftr len (align_val al) - 1)) s1 [] src src) as HL.
  destruct (mem_read_loop la al _ s1 [] src src) as [[s2 dest] src2]. cbn [fst snd] in HL.
  destruct (la s2 ADIV5_LOW_READ ADIV5_DP_RDBUFF 0) as [s3 tmp]. cbn [snd].
  rewrite length_app, HL. cbn [length].
  transitivity (Z.shiftr len (align_val al) * 2 ^ align_val al); [|exact H2]. f_equal. lia.
Qed.

(** A 6-byte read from a halfword-aligned address returns three halfwords. *)
Lemma adiv5_mem_read_byte_count_witness :
  0 <= 6 /\
  Z.of_nat (length (snd (adiv5_mem_read rec_low_access (mkAP 0 0 0 0 0) (mkRec [] []) 0x20000002 6)))
    * 2 ^ align_val (align_min (ALIGNOF 0x20000002) (ALIGNOF 6)) = 6.
Proof. split; [lia|]. apply adiv5_mem_read_byte_count. lia. Defined.

End TransportExtra.

Module DiscoveryExtra.
Import ADIv5 Discovery TransportFacts DiscoveryFacts DiscoveryX TransportExtra.

(** [|] of a value below [2^k] with a multiple of [2^k] is their sum. *)
Lemma lor_add (x y k : Z) : 0 <= k -> 0 <= x < 2 ^ k -> Z.lor x (y * 2 ^ k) = x + y * 2 ^ k.
Proof.
  intros Hk Hx. rewrite <- Z.shiftl_mul_pow2 by lia.
  assert (H0 : Z.land x (Z.shiftl y k) = 0).
  { apply Z.bits_inj'. intros m Hm. rewrite Z.land_spec, Z.bits_0.
    destruct (Z.ltb_spec m k).
    - rewrite Z.shiftl_spec_low by lia. apply andb_false_r.
    - rewrite <- (Z.mod_small x (2 ^ k)) by lia. rewrite Z.mod_pow2_bits_high by lia. reflexivity. }
  rewrite <- Z.lxor_lor by exact H0. rewrite <- Z.add_nocarry_lxor by exact H0. reflexivity.
Qed.

(** A byte mask lies in [0, 2^8). *)
Lemma byte_range (x : Z) : 0 <= Z.land x 0xFF < 2 ^ 8.
Proof. change 0xFF with (Z.ones 8). rewrite Z.land_ones by lia. apply Z.mod_pos_bound. lia. Qed.

(** The ID loop over a flat memory assembles the low bytes of four consecutive words, little end first, into a 32-bit value. *)
Lemma mem_id_loop_bytes (mem : Z -> Z) (addr : Z) :
  let b k := Z.land (mem (u32 (addr + 4 * k))) 0xFF in
  mem_id_loop mem 4 0 addr 0 = b 0 + b 1 * 2 ^ 8 + b 2 * 2 ^ 16 + b 3 * 2 ^ 24 /\
  0 <= mem_id_loop mem 4 0 addr 0 < 2 ^ 32.
Proof.
  intros b. cbn -[u32 Z.shiftl Z.land Z.lor Z.pow].
  pose proof (byte_range (mem (u32 (addr + 0)))) as R0.
  pose proof (byte_range (mem (u32 (addr + 4)))) as R1.
  pose proof (byte_range (mem (u32 (addr + 8)))) as R2.
  pose proof (byte_range (mem (u32 (addr + 12)))) as R3.
  subst b. cbv beta. cbn -[u32 Z.shiftl Z.land Z.lor Z.pow].
  set (b0 := Z.land (mem (u32 (addr + 0))) 255) in *.
  set (b1 := Z.land (mem (u32 (addr + 4))) 255) in *.
  set (b2 := Z.land (mem (u32 (addr + 8))) 255) in *.
  set (b3 := Z.land (mem (u32 (addr + 12))) 255) in *.
  change (2 ^ 8) with 256 in *.
  rewrite (shiftl_u32_small b0 0), (shiftl_u32_small b1 8), (shiftl_u32_small b2 16),
    (shiftl_u32_small b3 24) by lia.
  rewrite Z.lor_0_l.
  rewrite (lor_add _ b1 8) by lia.
  rewrite (lor_add _ b2 16) by lia.
  rewrite (lor_add _ b3 24) by lia.
  change (2 ^ 0) with 1. change (2 ^ 8) with 256.
  split; [ring|lia].
Qed.
(** [adiv5_ap_read_id] on a memory AP, at an aligned address: the result takes byte [k] from the low byte of word [k]. *)
Theorem adiv5_ap_read_id_bytes (ap : ADIv5_AP) (s : memap) (addr : Z) :
  Z.land addr 3 = 0 ->
  let b k := Z.land (m_mem s (u32 (addr + 4 * k))) 0xFF in
  snd (adiv5_ap_read_id memap_low_access ap s addr) = b 0 + b 1 * 2 ^ 8 + b 2 * 2 ^ 16 + b 3 * 2 ^ 24.
Proof.
  intros Ha b. destruct (memap_read_id ap s addr Ha) as [s' [E _]]. rewrite E.
  exact (proj1 (mem_id_loop_bytes (m_mem s) addr)).
Qed.

(** The CIDR of a concrete ROM table. *)
Lemma adiv5_ap_read_id_bytes_witness :
  Z.land 0xE00FFFF0 3 = 0 /\
  snd (adiv5_ap_read_id memap_low_access (mkAP 0 0 0 0 0) (mkMemAP 0 0 0 s1_mem []) 0xE00FFFF0) =
  Z.land (s1_mem (u32 (0xE00FFFF0 + 4 * 0))) 0xFF + Z.land (s1_mem (u32 (0xE00FFFF0 + 4 * 1))) 0xFF * 2 ^ 8
  + Z.land (s1_mem (u32 (0xE00FFFF0 + 4 * 2))) 0xFF * 2 ^ 16
  + Z.land (s1_mem (u32 (0xE00FFFF0 + 4 * 3))) 0xFF * 2 ^ 24.
Proof.
  split; [reflexivity|].
  exact (adiv5_ap_read_id_bytes (mkAP 0 0 0 0 0) (mkMemAP 0 0 0 s1_mem []) 0xE00FFFF0 eq_refl).
Defined.

(** [adiv5_ap_read_pidr] on a memory AP, at an aligned address: the PIDR is the PIDR4 block shifted up by 32 bits plus the PIDR0 block, with no overlap. *)
Theorem adiv5_ap_read_pidr_split (ap : ADIv5_AP) (s : memap) (addr : Z) :
  Z.land addr 3 = 0 ->
  snd (adiv5_ap_read_pidr memap_low_access ap s addr) =
  snd (adiv5_ap_read_id memap_low_access ap s (u32 (addr + PIDR4_OFFSET))) * 2 ^ 32 +
  snd (adiv5_ap_read_id memap_low_access ap s (u32 (addr + PIDR0_OFFSET))).
Proof.
  intros Ha. unfold adiv5_ap_read_pidr.
  assert (H4 : Z.land (u32 (addr + PIDR4_OFFSET)) 3 = 0) by (apply land3_u32_add; [exact Ha|reflexivity]).
  assert (H0 : Z.land (u32 (addr + PIDR0_OFFSET)) 3 = 0) by (apply land3_u32_add; [exact Ha|reflexivity]).
  destruct (memap_read_id ap s _ H4) as [s1 [E1 M1]]. rewrite E1.
  destruct (memap_read_id ap s1 _ H0) as [s2 [E2 _]]. rewrite E2.
  destruct (memap_read_id ap s _ H0) as [s3 [E3 _]]. rewrite E3. cbn [snd]. rewrite M1.
  destruct (mem_id_loop_bytes (m_mem s) (u32 (addr + PIDR4_OFFSET))) as [_ Rh].
  destruct (mem_id_loop_bytes (m_mem s) (u32 (addr + PIDR0_OFFSET))) as [_ Rl].
  set (hi := mem_id_loop (m_mem s) 4 0 (u32 (addr + PIDR4_OFFSET)) 0) in *.
  set (lo := mem_id_loop (m_mem s) 4 0 (u32 (addr + PIDR0_OFFSET)) 0) in *.
  unfold u64. rewrite Z.shiftl_mul_pow2 by lia. rewrite Z.mod_small by (change (2 ^ 64) with (2 ^ 32 * 2 ^ 32); nia).
  rewrite Z.lor_comm, lor_add by lia. ring.
Qed.

(** The PIDR of a concrete component. *)
Lemma adiv5_ap_read_pidr_split_witness :
  Z.land 0x80001000 3 = 0 /\
  snd (adiv5_ap_read_pidr memap_low_access (mkAP 0 0 0 0 0) (mkMemAP 0 0 0 two_level_rom []) 0x80001000) =
  snd (adiv5_ap_read_id memap_low_access (mkAP 0 0 0 0 0) (mkMemAP 0 0 0 two_level_rom [])
         (u32 (0x80001000 + PIDR4_OFFSET))) * 2 ^ 32 +
  snd (adiv5_ap_read_id memap_low_access (mkAP 0 0 0 0 0) (mkMemAP 0 0 0 two_level_rom [])
         (u32 (0x80001000 + PIDR0_OFFSET))).
Proof.
  split; [reflexivity|].
  exact (adiv5_ap_read_pidr_split (mkAP 0 0 0 0 0) (mkMemAP 0 0 0 two_level_rom []) 0x80001000 eq_refl).
Defined.

(** The DEVARCH table lookup as a chain of tests. *)
Lemma arch_lookup_devarch (id : Z) :
  arch_lookup devarch_archid_bits id =
  if (0x0a04 =? id) || (0x2a04 =? id) then aa_cortexm
  else if (0x6a15 =? id) || (0x7a15 =? id) || (0x8a15 =? id) then aa_cortexa
  else aa_nosupport.
Proof.
  cbn [arch_lookup devarch_archid_bits arch_eqb negb]. rewrite !andb_false_r, !andb_true_r.
  cbn beta iota.
  destruct (0x0a04 =? id), (0x2a04 =? id), (0x6a15 =? id), (0x7a15 =? id), (0x8a15 =? id); reflexivity.
Qed.

(** The DEVTYPE table lookup never recognises an architecture. *)
Lemma arch_lookup_devtype (id : Z) : arch_lookup devtype_id_bits id = aa_nosupport.
Proof.
  cbn [arch_lookup devtype_id_bits arch_eqb negb]. rewrite !andb_false_r. reflexivity.
Qed.

(** A 16-bit mask is idempotent. *)
Lemma land_ffff_idem (x : Z) : Z.land (Z.land x 0xFFFF) 0xFFFF = Z.land x 0xFFFF.
Proof. rewrite <- Z.land_assoc. reflexivity. Qed.

(** [adiv5_armv8_probe]: without the DEVARCH present bit the result is unsupported, whatever DEVTYPE says. With it, the result is Cortex-M exactly for architecture ids 0x0a04 and 0x2a04, Cortex-A exactly for 0x6a15, 0x7a15 and 0x8a15, and unsupported for every other id. *)
Theorem adiv5_armv8_probe_classes {S : Type} (la : S -> rnw -> reg -> Z -> S * Z)
    (ap : ADIv5_AP) (s : S) (addr : Z) :
  let devarch := snd (adiv5_mem_read32 la ap s (u32 (addr + DEVARCH_OFFSET))) in
  let id := Z.land devarch 0xFFFF in
  let r := snd (adiv5_armv8_probe la ap s addr) in
  (Z.land devarch DEVARCH_PRESENT_MASK = 0 -> r = aa_nosupport) /\
  (Z.land devarch DEVARCH_PRESENT_MASK <> 0 ->
     (r = aa_cortexm <-> id = 0x0a04 \/ id = 0x2a04) /\
     (r = aa_cortexa <-> id = 0x6a15 \/ id = 0x7a15 \/ id = 0x8a15) /\
     (r = aa_nosupport <-> ~ In id [0x0a04; 0x2a04; 0x6a15; 0x7a15; 0x8a15])).
Proof.
  intros devarch id r. subst devarch id r. unfold adiv5_armv8_probe.
  destruct (adiv5_mem_read32 la ap s (u32 (addr + DEVARCH_OFFSET))) as [s1 devarch]. cbn [snd].
  destruct (Z.eqb_spec (Z.land devarch DEVARCH_PRESENT_MASK) 0) as [E|E]; cbn [negb].
  - split; [|intros H; contradiction].
    intros _. destruct (adiv5_mem_read32 la ap s1 _) as [s2 devtype]. apply arch_lookup_devtype.
  - split; [intros H; contradiction|]. intros _.
    unfold DEVARCH_ARCHID_MASK, DEVARCH_ARCHID_SHIFT. rewrite Z.shiftr_0_r, land_ffff_idem.
    rewrite arch_lookup_devarch. set (id := Z.land devarch 0xFFFF).
    cbn [In].
    destruct (Z.eqb_spec 0x0a04 id), (Z.eqb_spec 0x2a04 id), (Z.eqb_spec 0x6a15 id),
      (Z.eqb_spec 0x7a15 id), (Z.eqb_spec 0x8a15 id); cbn [orb];
      repeat split; intros H;
      repeat match goal with
             | H : _ \/ _ |- _ => destruct H
             | H : ~ (_ \/ _) |- _ => apply Decidable.not_or in H; destruct H
             end;
      try discriminate; try lia; try tauto; exfalso; lia.
Qed.

(** [pidr_pn_bits] ends with its only [aa_end] row. *)
Lemma pidr_pn_bits_split :
  pidr_pn_bits = removelast pidr_pn_bits ++ [(0xfff, aa_end, cidc_unknown)] /\
  Forall (fun e : Z * arm_arch * Z => snd (fst e) <> aa_end) (removelast pidr_pn_bits).
Proof.
  split; [reflexivity|].
  vm_compute. repeat (constructor; [discriminate|]). constructor.
Qed.

(** A lookup in a table whose only end marker is last succeeds exactly on the part numbers of the rows before it. *)
Lemma pn_lookup_app_end (pre : list (Z * arm_arch * Z)) (k c pn : Z) :
  Forall (fun e : Z * arm_arch * Z => snd (fst e) <> aa_end) pre ->
  (pn_lookup (pre ++ [(k, aa_end, c)]) pn <> None <-> exists a c', In (pn, a, c') pre).
Proof.
  induction pre as [|[[k' a'] c'] pre IH]; intros HF.
  - cbn. split; [intros H; contradiction H; reflexivity | intros (a & c' & [])].
  - inversion HF as [|x l Ha HF']; subst. cbn [snd fst] in Ha.
    cbn [app pn_lookup].
    replace (arch_eqb a' aa_end) with false by (destruct a'; reflexivity || contradiction).
    destruct (Z.eqb_spec k' pn) as [->|Hne].
    + split; [intros _; exists a', c'; left; reflexivity | discriminate].
    + rewrite (IH HF'). split.
      * intros (a & c0 & H). exists a, c0. right. exact H.
      * intros (a & c0 & [H|H]); [congruence|]. exists a, c0. exact H.
Qed.

(** The part-number lookup succeeds exactly on the part numbers listed before the end marker. *)
Lemma pn_lookup_pidr (pn : Z) :
  pn_lookup pidr_pn_bits pn <> None <->
  exists arch c, In (pn, arch, c) pidr_pn_bits /\ arch <> aa_end.
Proof.
  destruct pidr_pn_bits_split as [E HF]. rewrite E, (pn_lookup_app_end _ _ _ _ HF).
  split.
  - intros (a & c & H). exists a, c. split; [apply in_or_app; left; exact H|].
    rewrite Forall_forall in HF. exact (HF _ H).
  - intros (a & c & H & Ha). apply in_app_or in H. destruct H as [H|[H|[]]].
    + exists a, c. exact H.
    + inversion H; subst. contradiction Ha; reflexivity.
Qed.

(** [adiv5_component_probe] on a memory AP, for a component with a valid preamble that is not a ROM table: the probe ends, and it reports a component exactly when the PIDR designer bits are ARM's and the part number is listed in [pidr_pn_bits]. This includes the rows marked unsupported. *)
Theorem component_probe_nonrom_result (cm : memap -> bool -> memap) (ca : memap -> Z -> memap)
    (ap : ADIv5_AP) (fuel : nat) (s : memap) (addr r e : Z) :
  let cidr := mem_cidr (m_mem s) addr in
  let pidr := mem_pidr (m_mem s) addr in
  Z.land cidr (not32 CID_CLASS_MASK) = CID_PREAMBLE ->
  Z.shiftr (Z.land cidr CID_CLASS_MASK) CID_CLASS_SHIFT <> cidc_romtab ->
  exists s' b,
    adiv5_component_probe memap_low_access memap_dp_error cm ca ap (Datatypes.S fuel) s addr r e
      = Some (s', b) /\
    (b = true <->
       Z.land pidr (not64 (Z.lor PIDR_REV_MASK PIDR_PN_MASK)) = PIDR_ARM_BITS /\
       exists arch c, In (Z.land pidr PIDR_PN_MASK, arch, c) pidr_pn_bits /\ arch <> aa_end).
Proof.
  intros cidr pidr Hpre Hcls. subst cidr pidr.
  cbn [adiv5_component_probe]. unfold adiv5_ap_read_pidr.
  pose proof (land3_addr addr) as Ha.
  unfold mem_cidr, mem_pidr in *. set (a := Z.land addr (not32 3)) in *.
  destruct (memap_read_id ap s (u32 (a + PIDR4_OFFSET))) as [s1 [E1 M1]].
  { apply land3_u32_add; [exact Ha | reflexivity]. }
  rewrite E1.
  destruct (memap_read_id ap s1 (u32 (a + PIDR0_OFFSET))) as [s2 [E2 M2]].
  { apply land3_u32_add; [exact Ha | reflexivity]. }
  rewrite E2.
  destruct (memap_read_id ap s2 (u32 (a + CIDR0_OFFSET))) as [s3 [E3 M3]].
  { apply land3_u32_add; [exact Ha | reflexivity]. }
  rewrite E3. unfold memap_dp_error. rewrite ?M2, ?M1.
  rewrite (proj2 (Z.eqb_eq _ _) Hpre), (proj2 (Z.eqb_neq _ _) Hcls). cbn [negb].
  set (pidr := Z.lor _ _).
  destruct (Z.eqb_spec (Z.land pidr (not64 (Z.lor PIDR_REV_MASK PIDR_PN_MASK))) PIDR_ARM_BITS)
    as [Harm|Harm]; cbn [negb].
  - pose proof (pn_lookup_pidr (Z.land pidr PIDR_PN_MASK)) as P.
    destruct (pn_lookup pidr_pn_bits (Z.land pidr PIDR_PN_MASK)) as [arch|] eqn:L.
    + destruct (if arch_eqb arch aa_v8 then _ else _) as [s4 v8].
      eexists; eexists; split; [reflexivity|]. split; [|intros _; reflexivity].
      intros _; split; [exact Harm|]. apply P. discriminate.
    + eexists; eexists; split; [reflexivity|]. split; [discriminate|].
      intros [_ H]. apply P in H. contradiction H; reflexivity.
  - eexists; eexists; split; [reflexivity|]. split; [discriminate|]. intros [H _]. contradiction.
Qed.

(** A debug component with a zero PIDR is not reported. *)
Lemma component_probe_nonrom_result_witness :
  Z.land (mem_cidr two_level_rom 0x80001000) (not32 CID_CLASS_MASK) = CID_PREAMBLE /\
  Z.shiftr (Z.land (mem_cidr two_level_rom 0x80001000) CID_CLASS_MASK) CID_CLASS_SHIFT <> cidc_romtab /\
  exists s' b,
    adiv5_component_probe memap_low_access memap_dp_error (fun s _ => s) (fun s _ => s)
      (mkAP 0 0 0 0 0) 1 (mkMemAP 0 0 0 two_level_rom []) 0x80001000 0 0 = Some (s', b) /\
    (b = true <->
       Z.land (mem_pidr two_level_rom 0x80001000) (not64 (Z.lor PIDR_REV_MASK PIDR_PN_MASK)) = PIDR_ARM_BITS /\
       exists arch c, In (Z.land (mem_pidr two_level_rom 0x80001000) PIDR_PN_MASK, arch, c) pidr_pn_bits
                      /\ arch <> aa_end).
Proof.
  split; [vm_compute; reflexivity|]. split; [vm_compute; discriminate|].
  exact (component_probe_nonrom_result (fun s _ => s) (fun s _ => s) (mkAP 0 0 0 0 0) 0
           (mkMemAP 0 0 0 two_level_rom []) 0x80001000 0 0 eq_refl (ltac:(vm_compute; discriminate))).
Defined.

End DiscoveryExtra.
